(** * AI Image Classifier: a shallow embedding of [app.py]

    The program is a Streamlit page that loads an image from an upload or
    from a URL, keeps its encoded bytes in the session state and shows it.
    The helpers [exif_safe_open], [center_crop_square], [preprocess_image]
    and [fetch_image_from_url] are embedded below together with [main].

    Python integers are [Z] ([//] is [Z.div], which floors), byte strings
    are [list Byte.byte], [st.session_state] and the [st.cache_data] store
    are [gmap]s keyed by strings.  Exceptions are values of [exn]; code
    that can raise lives in [result], code that also touches the session,
    the cache, the network or the page lives in the state monad [M]. *)

From Stdlib Require Import ZArith List String Ascii QArith Sorted Lia.
From stdpp Require Import base option list list_numbers gmap strings.

Local Open Scope Z_scope.

(** ** Exceptions and the error monad *)

Inductive exn :=
| ValueError
| AxisError
| UnidentifiedImageError
| OSError
| OverflowError
| TypeError
| AttributeError
| HTTPError (status : Z)
| ConnectionError
| Timeout
| TooManyRedirects
| MissingSchema.

Definition result (A : Type) : Type := exn + A.

Definition ok {A} (a : A) : result A := inr a.
Definition raise {A} (e : exn) : result A := inl e.

Definition rbind {A B} (m : result A) (k : A -> result B) : result B :=
  match m with
  | inl e => inl e
  | inr a => k a
  end.

Notation "'let*' x := m 'in' k" := (rbind m (fun x => k))
  (at level 10, x name, m at level 100, k at level 200).

Definition bytes := list Byte.byte.

(** ** Pillow images

    An [Image] carries its mode, its [size] as (width, height), the pixel
    rows (top row first, each pixel a list of band values) and the EXIF
    orientation tag of its [info], when there is one. *)

Inductive mode := L | RGB | RGBA.

Definition bands (m : mode) : nat :=
  match m with
  | L => 1%nat
  | RGB => 3%nat
  | RGBA => 4%nat
  end.

Abbreviation pixel := (list Z) (only parsing).

Record Image := mkImage {
  im_mode : mode;
  im_size : Z * Z;
  im_data : list (list pixel);
  im_orientation : option Z
}.

Inductive Resampling := NEAREST | BOX | BILINEAR | HAMMING | BICUBIC | LANCZOS.

Inductive Transpose :=
| FLIP_LEFT_RIGHT
| FLIP_TOP_BOTTOM
| ROTATE_90
| ROTATE_180
| ROTATE_270
| TRANSPOSE
| TRANSVERSE.

(** Pixels outside the stored rows read as zero, as in Pillow's [crop]. *)
Definition getpixel (im : Image) (x y : Z) : pixel :=
  if decide (0 <= x /\ 0 <= y) then
    match im_data im !! Z.to_nat y with
    | Some row => default (replicate (bands (im_mode im)) 0) (row !! Z.to_nat x)
    | None => replicate (bands (im_mode im)) 0
    end
  else replicate (bands (im_mode im)) 0.

(** [raster w h f] is the [h] rows of [w] pixels with [f x y] at column
    [x] of row [y]. *)
Definition raster (w h : Z) (f : Z -> Z -> pixel) : list (list pixel) :=
  (fun y => (fun x => f x y) <$> seqZ 0 w) <$> seqZ 0 h.

(** [Image.crop(box)]: the box is (left, upper, right, lower), here
    [(x0, y0, x1, y1)]; an inverted box raises [ValueError]. *)
Definition crop (im : Image) (box : Z * Z * Z * Z) : result Image :=
  let '(x0, y0, x1, y1) := box in
  if decide (x1 < x0) then raise ValueError
  else if decide (y1 < y0) then raise ValueError
  else ok {| im_mode := im_mode im;
             im_size := (x1 - x0, y1 - y0);
             im_data := raster (x1 - x0) (y1 - y0)
                          (fun x y => getpixel im (x0 + x) (y0 + y));
             im_orientation := im_orientation im |}.

(** [Image.convert("RGB")] on the modes modelled here. *)
Definition to_rgb (m : mode) (p : pixel) : pixel :=
  match m with
  | L => let v := default 0 (p !! 0%nat) in [v; v; v]
  | RGB => p
  | RGBA => take 3 p
  end.

Definition convert_RGB (im : Image) : Image :=
  {| im_mode := RGB;
     im_size := im_size im;
     im_data := match im_mode im with
                | RGB => im_data im
                | m => map (map (to_rgb m)) (im_data im)
                end;
     im_orientation := im_orientation im |}.

(** [Image.transpose(method)]. *)
Definition transpose (im : Image) (method : Transpose) : Image :=
  let '(w, h) := im_size im in
  let '(w', h', src) :=
    match method with
    | FLIP_LEFT_RIGHT => (w, h, fun x y => getpixel im (w - 1 - x) y)
    | FLIP_TOP_BOTTOM => (w, h, fun x y => getpixel im x (h - 1 - y))
    | ROTATE_90 => (h, w, fun x y => getpixel im (w - 1 - y) x)
    | ROTATE_180 => (w, h, fun x y => getpixel im (w - 1 - x) (h - 1 - y))
    | ROTATE_270 => (h, w, fun x y => getpixel im y (h - 1 - x))
    | TRANSPOSE => (h, w, fun x y => getpixel im y x)
    | TRANSVERSE => (h, w, fun x y => getpixel im (w - 1 - y) (h - 1 - x))
    end in
  {| im_mode := im_mode im;
     im_size := (w', h');
     im_data := raster w' h' src;
     im_orientation := im_orientation im |}.

(** [ImageOps.exif_transpose]: the orientation tag selects a transposition;
    the transposed image loses the tag, any other image is copied. *)
Definition exif_method (orientation : Z) : option Transpose :=
  if decide (orientation = 2) then Some FLIP_LEFT_RIGHT
  else if decide (orientation = 3) then Some ROTATE_180
  else if decide (orientation = 4) then Some FLIP_TOP_BOTTOM
  else if decide (orientation = 5) then Some TRANSPOSE
  else if decide (orientation = 6) then Some ROTATE_270
  else if decide (orientation = 7) then Some TRANSVERSE
  else if decide (orientation = 8) then Some ROTATE_90
  else None.

Definition exif_transpose (im : Image) : Image :=
  match exif_method (default 1 (im_orientation im)) with
  | Some method =>
      let t := transpose im method in
      {| im_mode := im_mode t; im_size := im_size t; im_data := im_data t;
         im_orientation := None |}
  | None => im
  end.

(** ** NumPy arrays: a shape and the elements in row-major order *)

Record ndarray (A : Type) := mkArray {
  shape : list Z;
  data : list A
}.
Arguments mkArray {A} _ _.
Arguments shape {A} _.
Arguments data {A} _.

(** [np.array(img)]: (height, width) for a single band, (height, width,
    bands) otherwise. *)
Definition np_array (im : Image) : ndarray Z :=
  let '(w, h) := im_size im in
  {| shape := match im_mode im with
              | L => [h; w]
              | m => [h; w; Z.of_nat (bands m)]
              end;
     data := concat (concat (im_data im)) |}.

Definition astype {A B} (f : A -> B) (a : ndarray A) : ndarray B :=
  {| shape := shape a; data := f <$> data a |}.

(** The values that fit a C int. *)
Definition fits_int (z : Z) : Prop := - 2 ^ 31 <= z /\ z < 2 ^ 31.

#[global] Instance fits_int_dec z : Decision (fits_int z).
Proof. unfold fits_int. apply _. Defined.

(** [np.expand_dims(a, axis)] for a non-negative axis. *)
Definition expand_dims {A} (a : ndarray A) (axis : nat) : result (ndarray A) :=
  if decide (axis <= length (shape a))%nat then
    ok {| shape := take axis (shape a) ++ 1 :: drop axis (shape a);
          data := data a |}
  else raise AxisError.

(** ** The libraries behind the program

    What the codecs, the resampling filter, the float conversion and the
    network return is not the program's business: each is a method of an
    interface, and everything below holds for every implementation. *)

Class Pillow := {
  (** [Image.open(io.BytesIO(b))] with the pixel data loaded. *)
  Image_open : bytes -> result Image;
  (** [img.save(buf, format="PNG")] followed by [buf.getvalue()]. *)
  save_PNG : Image -> result bytes;
  (** One band of the resized image: filter, source plane, source size,
      target size, column, row. *)
  resample : Resampling -> list (list Z) -> Z * Z -> Z * Z -> Z -> Z -> Z;
  (** A colour value multiplied by its alpha (the conversion from RGBA to
      the premultiplied RGBa), and the way back. *)
  premultiply : Z -> Z -> Z;
  unpremultiply : Z -> Z -> Z
}.

Class Keras := {
  float32 : Type;
  (** [astype(np.float32)] on one element. *)
  to_float32 : Z -> float32;
  (** [mobilenet_v2.preprocess_input] on one element. *)
  scale_input : float32 -> float32
}.

Record Response := mkResponse {
  status_code : Z;
  headers : list (string * string);
  content : bytes
}.

Class Network := {
  (** [requests.get(url, timeout=10, headers=..., allow_redirects=True)]:
      the final response or the exception, which may depend on how many
      requests went out before. *)
  requests_get : string -> nat -> result Response
}.

(** [Response.raise_for_status]: a client error (4xx) or a server error
    (5xx) raises [HTTPError]; any other status returns. *)
Definition raise_for_status (r : Response) : result unit :=
  if decide (400 <= status_code r /\ status_code r < 500) then
    raise (HTTPError (status_code r))
  else if decide (500 <= status_code r /\ status_code r < 600) then
    raise (HTTPError (status_code r))
  else ok tt.

Definition lower_ascii (c : ascii) : ascii :=
  let n := nat_of_ascii c in
  if decide (65 <= n /\ n <= 90)%nat then ascii_of_nat (n + 32) else c.

Fixpoint lower (s : string) : string :=
  match s with
  | EmptyString => EmptyString
  | String c t => String (lower_ascii c) (lower t)
  end.

(** [needle in hay] on strings. *)
Fixpoint str_in (needle hay : string) : bool :=
  String.prefix needle hay ||
  match hay with
  | EmptyString => false
  | String _ t => str_in needle t
  end.

(** [headers.get(key, default)]; header names compare without case. *)
Definition headers_get (hs : list (string * string)) (key dflt : string) : string :=
  match List.find (fun kv => String.eqb (lower (fst kv)) (lower key)) hs with
  | Some kv => snd kv
  | None => dflt
  end.

(** ** The world of one process: session, cache, network, page *)

Inductive value := VNone | VBytes (b : bytes) | VStr (s : string).

(** What a run puts on the page; [st_image] keeps the value formatted
    into the caption after "Source: ". *)
Inductive element :=
| st_error (msg : string) (e : exn)
| st_image (img : Image) (source : value)
| st_info (msg : string).

Record World := mkWorld {
  session_state : gmap string value;
  cache_data : gmap string Image;
  requests_sent : list string;
  page : list element
}.

Definition M (A : Type) : Type := World -> result A * World.

Definition mret {A} (a : A) : M A := fun w => (inr a, w).

Definition mbind {A B} (m : M A) (k : A -> M B) : M B :=
  fun w => match m w with
           | (inl e, w') => (inl e, w')
           | (inr a, w') => k a w'
           end.

Notation "'do' x <- m ; k" := (mbind m (fun x => k))
  (at level 10, x name, m at level 100, k at level 200).

Definition lift {A} (r : result A) : M A := fun w => (r, w).

(** [try: body except Exception as e: handler(e)]; what the body wrote
    before it raised stays written. *)
Definition try_except {A} (body : M A) (handler : exn -> M A) : M A :=
  fun w => match body w with
           | (inl e, w') => handler e w'
           | (inr a, w') => (inr a, w')
           end.

Definition has_key (k : string) : M bool :=
  fun w => (inr (bool_decide (is_Some (session_state w !! k))), w).

Definition getattr (k : string) : M value :=
  fun w => match session_state w !! k with
           | Some v => (inr v, w)
           | None => (inl AttributeError, w)
           end.

Definition setattr (k : string) (v : value) : M unit :=
  fun w => (inr tt, mkWorld (<[k := v]> (session_state w)) (cache_data w)
                            (requests_sent w) (page w)).

Definition show (el : element) : M unit :=
  fun w => (inr tt, mkWorld (session_state w) (cache_data w)
                            (requests_sent w) (page w ++ [el])).

Definition new_page : M unit :=
  fun w => (inr tt, mkWorld (session_state w) (cache_data w)
                            (requests_sent w) []).

(** [@st.cache_data]: a stored return value is handed back without
    running the function; a value is stored when the function returns,
    nothing is stored when it raises, nothing is ever evicted. *)
Definition st_cache_data (f : string -> M Image) (arg : string) : M Image :=
  fun w => match cache_data w !! arg with
           | Some img => (inr img, w)
           | None =>
               match f arg w with
               | (inr img, w') =>
                   (inr img, mkWorld (session_state w') (<[arg := img]> (cache_data w'))
                                     (requests_sent w') (page w'))
               | (inl e, w') => (inl e, w')
               end
           end.

(** ** The program *)

Section Program.
Context {pillow : Pillow} {keras : Keras} {network : Network}.

(** The pixels of the resized image: every band resampled onto the target
    grid. *)
Definition resample_bands (filter : Resampling) (data : list (list pixel))
    (n : nat) (src size : Z * Z) : list (list pixel) :=
  raster (fst size) (snd size) (fun x y =>
    (fun b => resample filter (map (map (fun p => default 0 (p !! b))) data)
                       src size x y)
    <$> seq 0 n).

(** RGBA to RGBa and back, one pixel. *)
Definition to_RGBa (p : pixel) : pixel :=
  let a := default 0 (p !! 3%nat) in
  [premultiply (default 0 (p !! 0%nat)) a; premultiply (default 0 (p !! 1%nat)) a;
   premultiply (default 0 (p !! 2%nat)) a; a].

Definition from_RGBa (p : pixel) : pixel :=
  let a := default 0 (p !! 3%nat) in
  [unpremultiply (default 0 (p !! 0%nat)) a; unpremultiply (default 0 (p !! 1%nat)) a;
   unpremultiply (default 0 (p !! 2%nat)) a; a].

(** [Image.resize(size, resample)]: an image that already has the size is
    copied.  Otherwise the two sides go to the C resampler as C ints, which
    raises [OverflowError] for a side out of range and then [ValueError]
    for a side below one pixel.  Every band is resampled onto the target
    grid; an RGBA image, under any filter but NEAREST, is resampled with
    its colours premultiplied by alpha and converted back. *)
Definition resize (im : Image) (size : Z * Z) (filter : Resampling) : result Image :=
  if decide (im_size im = size) then ok im
  else if decide (fits_int (fst size) /\ fits_int (snd size)) then
    if decide (fst size < 1 \/ snd size < 1) then raise ValueError
    else ok {| im_mode := im_mode im;
               im_size := size;
               im_data :=
                 match im_mode im, filter with
                 | RGBA, NEAREST =>
                     resample_bands filter (im_data im) 4 (im_size im) size
                 | RGBA, _ =>
                     map (map from_RGBa)
                       (resample_bands filter (map (map to_RGBa) (im_data im)) 4
                          (im_size im) size)
                 | m, _ =>
                     resample_bands filter (im_data im) (bands m) (im_size im) size
                 end;
               im_orientation := im_orientation im |}
  else raise OverflowError.

Definition preprocess_input (a : ndarray float32) : ndarray float32 :=
  astype scale_input a.

Definition exif_safe_open (img_file : bytes) : result Image :=
  let* opened := Image_open img_file in
  let img := convert_RGB opened in
  ok (exif_transpose img).

Definition center_crop_square (img : Image) : result Image :=
  let '(w, h) := im_size img in
  let side := Z.min w h in
  let left := (w - side) / 2 in
  let top := (h - side) / 2 in
  crop img (left, top, left + side, top + side).

Definition preprocess_image (img : Image) (target_size : Z * Z) (do_center_crop : bool)
  : result (ndarray float32) :=
  let* img := (if do_center_crop then center_crop_square img else ok img) in
  let* img := resize img target_size LANCZOS in
  let arr := astype to_float32 (np_array img) in
  let arr := preprocess_input arr in
  let* arr := expand_dims arr 0 in
  ok arr.

(** The call of [requests.get]: the request is logged, the network
    answers. *)
Definition http_get (url : string) : M Response :=
  fun w => (requests_get url (length (requests_sent w)),
            mkWorld (session_state w) (cache_data w)
                    (requests_sent w ++ [url]) (page w)).

(** The body of [fetch_image_from_url], under the decorator. *)
Definition fetch_image_from_url__wrapped (url : string) : M Image :=
  do r <- http_get url;
  do _ <- lift (raise_for_status r);
  let ctype := headers_get (headers r) "content-type" "" in
  do _ <- (if negb (str_in "image" (lower ctype)) then mret tt else mret tt);
  lift (exif_safe_open (content r)).

Definition fetch_image_from_url : string -> M Image :=
  st_cache_data fetch_image_from_url__wrapped.

(** What the widgets hand to one run of [main]. *)
Record UploadedFile := { read : result bytes }.

Record Inputs := mkInputs {
  load_model : result unit;
  topk : Z;
  threshold : Q;
  do_center_crop : bool;
  uploaded_file : option UploadedFile;
  url_input : string;
  load_btn : bool
}.

Definition main_session_defaults : M unit :=
  do present <- has_key "img_bytes";
  do _ <- (if negb present then setattr "img_bytes" VNone else mret tt);
  do present <- has_key "img_source";
  if negb present then setattr "img_source" VNone else mret tt.

(** The body of the [try] of the file upload. *)
Definition load_from_file (f : UploadedFile) : M unit :=
  do b <- lift (read f);
  do _ <- setattr "img_bytes" (VBytes b);
  setattr "img_source" (VStr "file").

Definition main_file_upload (uploaded : option UploadedFile) : M unit :=
  match uploaded with
  | Some f =>
      try_except (load_from_file f)
        (fun e => show (st_error "Failed to read uploaded image" e))
  | None => mret tt
  end.

(** The body of the [try] of the URL load. *)
Definition load_from_url (url : string) : M unit :=
  do img <- fetch_image_from_url url;
  do buf <- lift (save_PNG img);
  do _ <- setattr "img_bytes" (VBytes buf);
  setattr "img_source" (VStr "URL").

Definition main_url_input (url : string) (clicked : bool) : M unit :=
  if clicked && negb (String.eqb url "") then
    try_except (load_from_url url)
      (fun e => show (st_error "Failed to load from URL" e))
  else mret tt.

(** [image = None], then the decoding of the stored bytes when the field
    is not [None]; a stored string would make [io.BytesIO] raise inside
    the [try]. *)
Definition main_decode_stored : M (option Image) :=
  do stored <- getattr "img_bytes";
  match stored with
  | VNone => mret None
  | VBytes b =>
      try_except
        (do img <- lift (exif_safe_open b); mret (Some img))
        (fun e => do _ <- show (st_error "Could not decode image from memory" e);
                  mret None)
  | VStr _ =>
      do _ <- show (st_error "Could not decode image from memory" TypeError);
      mret None
  end.

Definition main_show (image : option Image) : M unit :=
  match image with
  | Some img =>
      do source <- getattr "img_source";
      do _ <- show (st_image img source);
      show (st_info "Clicking Classify will be enabled in the next step.")
  | None => show (st_info "Upload a file, or paste a URL and click Load from URL.")
  end.

(** One run of the script.  The title, the sidebar and the widgets only
    produce the values of [Inputs]; of the page, the errors, the image and
    the info lines are kept (the second info line without the quotes
    around the name of the button). *)
Definition main (i : Inputs) : M unit :=
  do _ <- new_page;
  do _model <- lift (load_model i);
  do _ <- main_session_defaults;
  do _ <- main_file_upload (uploaded_file i);
  do _ <- main_url_input (url_input i) (load_btn i);
  do image <- main_decode_stored;
  main_show image.

(** ** How a process evolves *)



(** Anything the program does to the world, at a finer grain: a call of
    the cached fetch, a whole run, or writes to the session and the page. *)
Inductive process_step : World -> World -> Prop :=
| step_fetch url w : process_step w (snd (fetch_image_from_url url w))
| step_main i w : process_step w (snd (main i w))
| step_session s p w :
    process_step w (mkWorld s (cache_data w) (requests_sent w) p).

End Program.

Definition initial_world : World := mkWorld ∅ ∅ [] [].

(** The world once the request for [url] has gone out. *)
Definition sent (url : string) (w : World) : World :=
  mkWorld (session_state w) (cache_data w) (requests_sent w ++ [url]) (page w).

(** The world once both session fields have been assigned. *)
Definition loaded (buf : bytes) (tag : string) (w : World) : World :=
  mkWorld (<["img_source" := VStr tag]> (<["img_bytes" := VBytes buf]> (session_state w)))
          (cache_data w) (requests_sent w) (page w).

(** The world once a message has been put on the page. *)
Definition shown (el : element) (w : World) : World :=
  mkWorld (session_state w) (cache_data w) (requests_sent w) (page w ++ [el]).

(** The default of the parameter [target_size]. *)
Definition default_target_size : Z * Z := (224, 224).

(** ** Predicates of the statements *)

(** A decoded bitmap: positive extents and pixel rows that fill them. *)
Definition wf_image (im : Image) : Prop :=
  0 < fst (im_size im) /\ 0 < snd (im_size im) /\
  length (im_data im) = Z.to_nat (snd (im_size im)) /\
  Forall (fun row => length row = Z.to_nat (fst (im_size im)) /\
                     Forall (fun p : pixel => length p = bands (im_mode im)) row)
         (im_data im).

#[global] Instance wf_image_dec im : Decision (wf_image im).
Proof. unfold wf_image. apply _. Defined.

Definition same_bitmap (a b : Image) : Prop :=
  im_mode a = im_mode b /\ im_size a = im_size b /\ im_data a = im_data b.

(** The two session fields, as stored. *)
Definition image_fields (w : World) : option value * option value :=
  (session_state w !! "img_bytes", session_state w !! "img_source").

(** Both fields unset, or bytes together with one of the two tags. *)
Definition session_consistent (w : World) : bool :=
  match image_fields w with
  | (None, None) => true
  | (Some VNone, Some VNone) => true
  | (Some (VBytes _), Some (VStr tag)) => String.eqb tag "file" || String.eqb tag "URL"
  | _ => false
  end.

(** Properties kept by a computation, and properties that do not look at
    the page or at the session. *)
Definition preserves {A} (P : World -> Prop) (m : M A) : Prop :=
  forall w, P w -> P (snd (m w)).

Definition page_blind (P : World -> Prop) : Prop :=
  forall w p, P w -> P (mkWorld (session_state w) (cache_data w) (requests_sent w) p).

Definition session_blind (P : World -> Prop) : Prop :=
  forall w s, P w -> P (mkWorld s (cache_data w) (requests_sent w) (page w)).

(** What [exif_safe_open] hands out: RGB, with no transposition pending. *)
Definition normalized (img : Image) : Prop :=
  im_mode img = RGB /\ exif_method (default 1 (im_orientation img)) = None.

(** Every memoized image is normalized. *)
Definition cache_normalized (cache : gmap string Image) : Prop :=
  forall url img, cache !! url = Some img -> normalized img.

(** Properties of the cache that survive the memoization of one more
    normalized image under a fresh key. *)
Definition cache_stable (Q : gmap string Image -> Prop) : Prop :=
  forall cache url img, Q cache -> cache !! url = None -> normalized img ->
    Q (<[url := img]> cache).

(** One attempt to load an image: the body of its [try], and the whole
    statement with its handler. *)
Inductive attempt := FromFile (f : UploadedFile) | FromURL (url : string).

Definition attempt_body {pillow : Pillow} {network : Network} (a : attempt) : M unit :=
  match a with
  | FromFile f => load_from_file f
  | FromURL url => load_from_url url
  end.

Definition run_attempt {pillow : Pillow} {network : Network} (a : attempt) : M unit :=
  match a with
  | FromFile f => main_file_upload (Some f)
  | FromURL url => main_url_input url true
  end.

(** PNG is lossless and the writer emits no EXIF block: what is read back
    is the saved RGB bitmap without an orientation tag. *)
Definition PNG_lossless {pillow : Pillow} : Prop :=
  forall im buf, im_mode im = RGB -> save_PNG im = inr buf ->
    Image_open buf = inr (mkImage RGB (im_size im) (im_data im) None).

(** The orientation tags whose transposition exchanges width and height. *)
Definition swaps_axes (orientation : Z) : bool :=
  bool_decide (5 <= orientation /\ orientation <= 8).

(** The trailing axes of [np.array(img)]: none for a single band. *)
Definition channel_axes (m : mode) : list Z :=
  match m with
  | L => []
  | m => [Z.of_nat (bands m)]
  end.

(** The world of a run of [main] once both loads are through, before the
    stored bytes are decoded for display. *)
Definition acquired {pillow : Pillow} {network : Network} (i : Inputs) (w : World) : World :=
  snd (main_url_input (url_input i) (load_btn i)
         (snd (main_file_upload (uploaded_file i)
                 (snd (main_session_defaults (snd (new_page w))))))).

(** Every memoized URL went out as a request. *)
Definition cache_requested (w : World) : Prop :=
  forall url, is_Some (cache_data w !! url) -> url ∈ requests_sent w.

(** What the end of a run puts on the page for the stored bytes [vb] and
    the stored tag [vs]. *)
Definition rendering {pillow : Pillow} (vb vs : value) : list element :=
  match vb with
  | VNone => [st_info "Upload a file, or paste a URL and click Load from URL."]
  | VBytes b =>
      match exif_safe_open b with
      | inr img => [st_image img vs;
                    st_info "Clicking Classify will be enabled in the next step."]
      | inl e => [st_error "Could not decode image from memory" e;
                  st_info "Upload a file, or paste a URL and click Load from URL."]
      end
  | VStr _ => [st_error "Could not decode image from memory" TypeError;
               st_info "Upload a file, or paste a URL and click Load from URL."]
  end.

Definition is_error (el : element) : Prop :=
  match el with
  | st_error _ _ => True
  | _ => False
  end.

(** The session state with the two fields defaulted to [None]. *)
Definition defaulted (s : gmap string value) : gmap string value :=
  let s1 := match s !! "img_bytes" with
            | Some _ => s
            | None => <["img_bytes" := VNone]> s
            end in
  match s1 !! "img_source" with
  | Some _ => s1
  | None => <["img_source" := VNone]> s1
  end.

(** ** Filtering of the predictions *)

(** Modelled from the spec: the filtering of the ranked (label, confidence)
    list before display. [app.py] reads the Top-K and threshold sliders but
    has no classification step that uses them, so the list shown is taken
    from the design text: drop the entries below the threshold, then keep
    the first Top-K of what remains. *)
Definition displayed_predictions (ranked : list (string * Q)) (T : Q) (K : nat)
  : list (string * Q) :=
  firstn K (List.filter (fun p => Qle_bool T (snd p)) ranked).

Fixpoint count_at_least (T : Q) (ranked : list (string * Q)) : nat :=
  match ranked with
  | [] => 0%nat
  | p :: rest => ((if Qle_bool T (snd p) then 1 else 0) + count_at_least T rest)%nat
  end.

Definition descending (l : list (string * Q)) : Prop :=
  StronglySorted (fun p q => (snd q <= snd p)%Q) l.

(** ** A small concrete library, to run the program on

    Two files are known to the decoder: a photo stored sideways (RGBA with
    EXIF orientation 6) and the PNG of what it looks like upright.  The
    resampling is nearest-neighbour, floats are rationals, and the network
    serves four addresses. *)

#[global] Instance byte_eq_dec : EqDecision Byte.byte := Byte.byte_eq_dec.
#[global] Instance mode_eq_dec : EqDecision mode.
Proof. solve_decision. Defined.
#[global] Instance Image_eq_dec : EqDecision Image.
Proof. solve_decision. Defined.

Definition photo : Image :=
  {| im_mode := RGBA;
     im_size := (3, 2);
     im_data := [ [ [10; 20; 30; 255]; [40; 50; 60; 255]; [70; 80; 90; 255] ];
                  [ [11; 21; 31; 255]; [41; 51; 61; 255]; [71; 81; 91; 128] ] ];
     im_orientation := Some 6 |}.

Definition upright : Image := exif_transpose (convert_RGB photo).

Definition photo_jpg : bytes := [Byte.xff; Byte.xd8; Byte.xff; Byte.xe1].
Definition upright_png : bytes := [Byte.x89; Byte.x50; Byte.x4e; Byte.x47].
Definition garbage : bytes := [Byte.x00; Byte.x01].

Definition nearest (plane : list (list Z)) (src dst : Z * Z) (x y : Z) : Z :=
  default 0 (row ← plane !! Z.to_nat (y * snd src / snd dst);
             row !! Z.to_nat (x * fst src / fst dst)).

Definition small_pillow : Pillow :=
  {| Image_open b :=
       if decide (b = photo_jpg) then ok photo
       else if decide (b = upright_png) then ok upright
       else raise UnidentifiedImageError;
     save_PNG im :=
       if decide (mkImage (im_mode im) (im_size im) (im_data im) None = upright)
       then ok upright_png else raise OSError;
     resample _ := nearest;
     premultiply c a := Z.shiftr (Z.shiftr (c * a + 128) 8 + (c * a + 128)) 8;
     unpremultiply c a :=
       if decide (a = 0 \/ a = 255) then c
       else Z.max 0 (Z.min 255 (255 * c / a)) |}.

Definition rational_keras : Keras :=
  {| float32 := Q;
     to_float32 z := inject_Z z;
     scale_input x := (x * (2 # 255) - 1)%Q |}.

(** The photo is served once with a wrong content type and is gone
    afterwards; another address answers 300 with an image body. *)
Definition small_network : Network :=
  {| requests_get url n :=
       if String.eqb url "https://example.org/photo" then
         match n with
         | O => ok (mkResponse 200 [("Content-Type", "text/html")] photo_jpg)
         | _ => ok (mkResponse 404 [] [])
         end
       else if String.eqb url "https://example.org/choices" then
         ok (mkResponse 300 [("content-type", "image/png")] upright_png)
       else if String.eqb url "https://example.org/missing" then
         ok (mkResponse 404 [("content-type", "text/html")] garbage)
       else raise ConnectionError |}.

(** A session that holds the upright picture, loaded from a URL. *)
Definition showing_upright : World :=
  mkWorld (<["img_source" := VStr "URL"]> (<["img_bytes" := VBytes upright_png]> ∅))
          ∅ [] [].

(** Widget values: the photo in the uploader and a click on the load
    button; and an empty uploader with a click on an address that is
    missing. *)
Definition first_run : Inputs :=
  mkInputs (inr tt) 3 (5 # 100) true (Some {| read := inr photo_jpg |})
           "https://example.org/photo" true.

Definition missing_run : Inputs :=
  mkInputs (inr tt) 3 (5 # 100) true None "https://example.org/missing" true.

Definition scenario_ranked : list (string * Q) :=
  [("tabby", 6 # 10); ("tiger_cat", 3 # 10); ("lynx", 8 # 100);
   ("fox", 1 # 100); ("dog", 1 # 100)].

(** * Proofs *)

(** ** Rasters and pixels *)

Lemma length_raster w h f : length (raster w h f) = Z.to_nat h.
Proof. unfold raster. by rewrite length_fmap, length_seqZ. Qed.

Lemma raster_lookup w h f y :
  0 <= y < h ->
  raster w h f !! Z.to_nat y = Some ((fun x => f x y) <$> seqZ 0 w).
Proof.
  intros Hy. unfold raster. rewrite list_lookup_fmap.
  rewrite lookup_seqZ_lt by lia. simpl. by rewrite Z2Nat.id by lia.
Qed.

Lemma raster_rows w h f :
  Forall (fun row => length row = Z.to_nat w) (raster w h f).
Proof.
  unfold raster. apply Forall_fmap, Forall_forall. intros y _. simpl.
  by rewrite length_fmap, length_seqZ.
Qed.

Lemma getpixel_raster m w h f o x y :
  0 <= x < w -> 0 <= y < h ->
  getpixel (mkImage m (w, h) (raster w h f) o) x y = f x y.
Proof.
  intros Hx Hy. unfold getpixel. simpl.
  rewrite decide_True by lia. rewrite raster_lookup by lia.
  rewrite list_lookup_fmap, lookup_seqZ_lt by lia. simpl.
  by rewrite Z2Nat.id by lia.
Qed.

(** Reading every pixel of a well-formed image gives its rows back. *)
Lemma raster_getpixel im :
  wf_image im ->
  raster (fst (im_size im)) (snd (im_size im)) (getpixel im) = im_data im.
Proof.
  intros (Hw & Hh & Hlen & Hrows).
  apply list_eq. intros i.
  destruct (decide (i < length (im_data im))%nat) as [Hi|Hi].
  - replace i with (Z.to_nat (Z.of_nat i)) at 1 by lia.
    rewrite raster_lookup by lia.
    destruct (lookup_lt_is_Some_2 (im_data im) i Hi) as [row Hrow].
    rewrite Hrow. f_equal.
    rewrite Forall_forall in Hrows.
    destruct (Hrows row) as [Hrl _]; [by eapply list_elem_of_lookup_2|].
    apply list_eq. intros j. rewrite list_lookup_fmap.
    destruct (decide (j < length row)%nat) as [Hj|Hj].
    + rewrite lookup_seqZ_lt by lia. simpl.
      unfold getpixel. rewrite decide_True by lia.
      rewrite Z.add_0_l, !Nat2Z.id, Hrow.
      destruct (lookup_lt_is_Some_2 row j Hj) as [p Hp].
      by rewrite Hp.
    + rewrite lookup_seqZ_ge by lia. simpl.
      symmetry. apply lookup_ge_None. lia.
  - rewrite (lookup_ge_None_2 (im_data im)) by lia.
    apply lookup_ge_None. rewrite length_raster. lia.
Qed.

Lemma concat_length_uniform {A} (n : nat) (ls : list (list A)) :
  Forall (fun l => length l = n) ls -> length (concat ls) = (length ls * n)%nat.
Proof.
  induction 1 as [|l ls Hl _ IH]; simpl; [done|].
  rewrite length_app, IH, Hl. lia.
Qed.

Section Preprocessing.
Context {pillow : Pillow} {keras : Keras}.

(** ** [center_crop_square] *)

Lemma center_crop_square_box img :
  center_crop_square img =
  crop img ((fst (im_size img) - Z.min (fst (im_size img)) (snd (im_size img))) / 2,
            (snd (im_size img) - Z.min (fst (im_size img)) (snd (im_size img))) / 2,
            (fst (im_size img) - Z.min (fst (im_size img)) (snd (im_size img))) / 2
              + Z.min (fst (im_size img)) (snd (im_size img)),
            (snd (im_size img) - Z.min (fst (im_size img)) (snd (im_size img))) / 2
              + Z.min (fst (im_size img)) (snd (im_size img))).
Proof. unfold center_crop_square. by destruct (im_size img). Qed.

(** C4: the centre crop of a [w] x [h] image is the square of side
    [min w h] whose pixel (x, y) is the source pixel at the offsets
    [(w - side) div 2] and [(h - side) div 2]; the shorter axis is not
    trimmed, the far trim of the longer axis equals the near trim or
    exceeds it by one (odd excess, offset rounded down), and a square
    image comes back as it is. *)
Theorem center_crop_square_centered (img : Image) (w h : Z) :
  wf_image img -> im_size img = (w, h) ->
  let side := Z.min w h in
  let dx := (w - side) / 2 in
  let dy := (h - side) / 2 in
  exists out,
    center_crop_square img = inr out /\
    im_size out = (side, side) /\
    im_mode out = im_mode img /\
    (forall x y, 0 <= x < side -> 0 <= y < side ->
       getpixel out x y = getpixel img (dx + x) (dy + y)) /\
    dx = (Z.max w h - side) / 2 * (if decide (h < w) then 1 else 0) /\
    dy = (Z.max w h - side) / 2 * (if decide (w < h) then 1 else 0) /\
    (w - side - dx = dx + (w - side) mod 2) /\
    (h - side - dy = dy + (h - side) mod 2) /\
    (w = h -> out = img).
Proof.
  intros Hwf Hsize side dx dy.
  assert (Hpos : 0 < w /\ 0 < h).
  { destruct Hwf as (Hw & Hh & _). rewrite Hsize in Hw, Hh. simpl in *. lia. }
  rewrite center_crop_square_box, Hsize. simpl fst. simpl snd.
  fold side. fold dx. fold dy.
  unfold crop. rewrite !decide_False by lia.
  replace (dx + side - dx) with side by lia.
  replace (dy + side - dy) with side by lia.
  eexists. split; [reflexivity|]. simpl.
  split; [done|]. split; [done|]. split.
  { intros x y Hx Hy. by rewrite getpixel_raster. }
  assert (Hdx : w - side = 2 * dx + (w - side) mod 2)
    by (unfold dx; apply Z.div_mod; lia).
  assert (Hdy : h - side = 2 * dy + (h - side) mod 2)
    by (unfold dy; apply Z.div_mod; lia).
  split.
  { unfold dx, side. case_decide.
    - rewrite Z.max_l, Z.min_r by lia. by rewrite Z.mul_1_r.
    - rewrite Z.min_l by lia. by rewrite Z.sub_diag, Z.mul_0_r. }
  split.
  { unfold dy, side. case_decide.
    - rewrite Z.max_r, Z.min_l by lia. by rewrite Z.mul_1_r.
    - rewrite Z.min_r by lia. by rewrite Z.sub_diag, Z.mul_0_r. }
  split; [lia|]. split; [lia|].
  intros ->.
  assert (Hs : side = h) by (unfold side; lia).
  assert (Hx0 : dx = 0) by (unfold dx; rewrite Hs, Z.sub_diag; done).
  assert (Hy0 : dy = 0) by (unfold dy; rewrite Hs, Z.sub_diag; done).
  rewrite Hs, Hx0, Hy0.
  destruct img as [m sz d o]. simpl in *. subst sz. f_equal.
  etrans; [|exact (raster_getpixel (mkImage m (h, h) d o) Hwf)]. simpl.
  unfold raster. apply list_fmap_ext. intros _ y _.
  apply list_fmap_ext. intros _ x _. f_equal; lia.
Qed.

(** ** [preprocess_image] *)

Lemma length_getpixel im x y :
  wf_image im -> length (getpixel im x y) = bands (im_mode im).
Proof.
  intros (_ & _ & _ & Hrows). unfold getpixel.
  case_decide; [|by rewrite length_replicate].
  destruct (im_data im !! Z.to_nat y) as [row|] eqn:Hrow;
    [|by rewrite length_replicate].
  destruct (row !! Z.to_nat x) as [p|] eqn:Hp; simpl;
    [|by rewrite length_replicate].
  rewrite Forall_forall in Hrows.
  destruct (Hrows row) as [_ Hpx]; [by eapply list_elem_of_lookup_2|].
  rewrite Forall_forall in Hpx. apply Hpx. by eapply list_elem_of_lookup_2.
Qed.

Lemma wf_raster m w h f o :
  0 < w -> 0 < h -> (forall x y, length (f x y) = bands m) ->
  wf_image (mkImage m (w, h) (raster w h f) o).
Proof.
  intros Hw Hh Hf. unfold wf_image. simpl.
  split; [done|]. split; [done|]. split; [apply length_raster|].
  unfold raster. apply Forall_fmap, Forall_forall. intros y _. simpl.
  split; [by rewrite length_fmap, length_seqZ|].
  apply Forall_fmap, Forall_forall. intros x _. apply Hf.
Qed.

Lemma center_crop_square_wf img :
  wf_image img ->
  exists out, center_crop_square img = inr out /\
    im_mode out = im_mode img /\ wf_image out.
Proof.
  intros Hwf. pose proof Hwf as (Hw & Hh & _).
  rewrite center_crop_square_box. unfold crop.
  rewrite !decide_False by lia.
  eexists. split; [reflexivity|]. split; [done|].
  apply wf_raster; [lia|lia|]. intros x y. by apply length_getpixel.
Qed.

Lemma resample_bands_wf m filter data n src tw th o :
  0 < tw -> 0 < th -> n = bands m ->
  wf_image (mkImage m (tw, th) (resample_bands filter data n src (tw, th)) o).
Proof.
  intros Hw Hh ->. unfold resample_bands. simpl.
  apply wf_raster; [done|done|]. intros x y.
  by rewrite length_fmap, length_seq.
Qed.

(** Converting the pixels back from RGBa keeps the rows and gives four
    bands. *)
Lemma from_RGBa_wf data tw th o :
  wf_image (mkImage RGBA (tw, th) data o) ->
  wf_image (mkImage RGBA (tw, th) (map (map from_RGBa) data) o).
Proof.
  intros (Hw & Hh & Hlen & Hrows). unfold wf_image. simpl in *.
  split; [done|]. split; [done|]. split; [by rewrite length_map|].
  apply Forall_map. eapply Forall_impl; [exact Hrows|].
  intros row [Hrl _]. simpl. split; [by rewrite length_map|].
  apply Forall_map, Forall_forall. by intros p _.
Qed.

Lemma resize_wf img tw th filter :
  wf_image img -> 1 <= tw < 2 ^ 31 -> 1 <= th < 2 ^ 31 ->
  exists out, resize img (tw, th) filter = inr out /\
    im_size out = (tw, th) /\ im_mode out = im_mode img /\ wf_image out.
Proof.
  intros Hwf Hw Hh. unfold resize. case_decide as Hsame.
  - by exists img.
  - simpl. rewrite decide_True by (unfold fits_int; lia).
    rewrite decide_False by lia.
    eexists. split; [reflexivity|]. split; [done|]. split; [done|].
    destruct (im_mode img) eqn:Hm; simpl.
    + apply (resample_bands_wf L); [lia|lia|done].
    + apply (resample_bands_wf RGB); [lia|lia|done].
    + destruct filter; try apply from_RGBa_wf;
        (apply (resample_bands_wf RGBA); [lia|lia|done]).
Qed.

Lemma np_array_wf img w h :
  wf_image img -> im_size img = (w, h) -> im_mode img = RGB ->
  shape (np_array img) = [h; w; 3] /\
  Z.of_nat (length (data (np_array img))) = h * w * 3.
Proof.
  intros (Hw & Hh & Hlen & Hrows) Hsize Hmode. unfold np_array.
  rewrite Hsize, Hmode in *. simpl in *. split; [done|].
  assert (Hpx : Forall (fun p : pixel => length p = 3%nat) (concat (im_data img))).
  { apply Forall_concat. eapply Forall_impl; [exact Hrows|]. by intros row [_ ?]. }
  assert (Hrl : Forall (fun row : list pixel => length row = Z.to_nat w) (im_data img)).
  { eapply Forall_impl; [exact Hrows|]. by intros row [? _]. }
  rewrite (concat_length_uniform _ _ Hpx).
  rewrite (concat_length_uniform (A:=pixel) _ _ Hrl), Hlen.
  lia.
Qed.

(** C1: for every decoded RGB image, whatever its width and height, and
    for either value of the crop flag, [preprocess_image] with the default
    target size returns (it does not raise) an array of shape
    (1, 224, 224, 3) holding 1 * 224 * 224 * 3 elements. *)
Theorem preprocess_image_shape (img : Image) (crop_flag : bool) :
  wf_image img -> im_mode img = RGB ->
  exists t,
    preprocess_image img default_target_size crop_flag = inr t /\
    shape t = [1; 224; 224; 3] /\
    Z.of_nat (length (data t)) = 1 * 224 * 224 * 3.
Proof.
  intros Hwf Hmode. unfold preprocess_image, default_target_size.
  assert (Hcrop : exists c,
    (if crop_flag then center_crop_square img else ok img) = inr c /\
    im_mode c = RGB /\ wf_image c).
  { destruct crop_flag.
    - destruct (center_crop_square_wf img Hwf) as (c & -> & Hm & Hc).
      exists c. by rewrite Hm.
    - by exists img. }
  destruct Hcrop as (c & -> & Hcm & Hcwf). simpl.
  destruct (resize_wf c 224 224 LANCZOS Hcwf) as (r & -> & Hrs & Hrm & Hrwf);
    [lia|lia|]. simpl.
  rewrite Hcm in Hrm.
  destruct (np_array_wf r 224 224 Hrwf Hrs Hrm) as [Hshape Hdata].
  unfold expand_dims, preprocess_input, astype. simpl.
  rewrite Hshape. simpl.
  eexists. split; [reflexivity|]. simpl. split; [done|].
  by rewrite !length_fmap, Hdata.
Qed.

(** C9: [preprocess_image] is a function of the bitmap (mode, size and
    pixels; not the metadata), the target size and the crop flag alone:
    equal bitmaps and flags give equal results, and sequenced into the
    program it returns the same in every world and leaves it as it was. *)
Theorem preprocess_image_pure (a b : Image) (target : Z * Z) (flag : bool) :
  same_bitmap a b ->
  preprocess_image a target flag = preprocess_image b target flag /\
  forall w1 w2 : World,
    fst (lift (preprocess_image a target flag) w1) =
    fst (lift (preprocess_image b target flag) w2) /\
    snd (lift (preprocess_image a target flag) w1) = w1 /\
    snd (lift (preprocess_image b target flag) w2) = w2.
Proof.
  intros Hsame.
  assert (Heq : preprocess_image a target flag = preprocess_image b target flag).
  { destruct a as [m s d o1], b as [m' s' d' o2].
    destruct Hsame as (Hm & Hs & Hd). simpl in *. subst m' s' d'.
    unfold preprocess_image. destruct flag.
    - rewrite !center_crop_square_box. unfold crop. simpl.
      repeat case_decide; simpl; try reflexivity.
      unfold resize. simpl. repeat case_decide; reflexivity.
    - simpl. unfold resize. simpl. repeat case_decide; reflexivity. }
  split; [exact Heq|]. intros w1 w2. simpl. by rewrite Heq.
Qed.

End Preprocessing.

(** ** The fetch and the session *)

Section Session.
Context {pillow : Pillow} {network : Network}.

Lemma raise_for_status_error r :
  400 <= status_code r < 600 ->
  raise_for_status r = inl (HTTPError (status_code r)).
Proof.
  intros Hs. unfold raise_for_status.
  destruct (decide (400 <= status_code r /\ status_code r < 500)); [done|].
  by rewrite decide_True by lia.
Qed.

Lemma raise_for_status_pass r :
  ~ (400 <= status_code r < 600) -> raise_for_status r = inr tt.
Proof.
  intros Hs. unfold raise_for_status. by rewrite !decide_False by lia.
Qed.

Lemma wrapped_eq url w :
  fetch_image_from_url__wrapped url w =
  match requests_get url (length (requests_sent w)) with
  | inl e => (inl e, sent url w)
  | inr r =>
      match raise_for_status r with
      | inl e => (inl e, sent url w)
      | inr _ => (exif_safe_open (content r), sent url w)
      end
  end.
Proof.
  unfold fetch_image_from_url__wrapped, mbind, http_get, lift, mret, sent.
  destruct (requests_get url (length (requests_sent w))) as [e|r]; [done|].
  destruct (raise_for_status r) as [e|[]]; [done|].
  by destruct (negb _).
Qed.

Lemma fetch_hit url img w :
  cache_data w !! url = Some img -> fetch_image_from_url url w = (inr img, w).
Proof. intros Hc. unfold fetch_image_from_url, st_cache_data. by rewrite Hc. Qed.

Lemma fetch_miss url w :
  cache_data w !! url = None ->
  fetch_image_from_url url w =
  match requests_get url (length (requests_sent w)) with
  | inl e => (inl e, sent url w)
  | inr r =>
      match raise_for_status r with
      | inl e => (inl e, sent url w)
      | inr _ =>
          match exif_safe_open (content r) with
          | inl e => (inl e, sent url w)
          | inr img =>
              (inr img, mkWorld (session_state w) (<[url := img]> (cache_data w))
                                (requests_sent w ++ [url]) (page w))
          end
      end
  end.
Proof.
  intros Hc. unfold fetch_image_from_url, st_cache_data. rewrite Hc, wrapped_eq.
  destruct (requests_get url (length (requests_sent w))) as [e|r]; [done|].
  destruct (raise_for_status r) as [e|[]]; [done|].
  by destruct (exif_safe_open (content r)).
Qed.

Lemma fetch_session url w :
  session_state (snd (fetch_image_from_url url w)) = session_state w /\
  page (snd (fetch_image_from_url url w)) = page w.
Proof.
  destruct (cache_data w !! url) as [img|] eqn:Hc.
  - by rewrite (fetch_hit _ _ _ Hc).
  - rewrite (fetch_miss _ _ Hc).
    destruct (requests_get url (length (requests_sent w))) as [e|r]; [done|].
    destruct (raise_for_status r) as [e|[]]; [done|].
    by destruct (exif_safe_open (content r)).
Qed.

Lemma exif_transpose_normalized im :
  im_mode im = RGB -> normalized (exif_transpose im).
Proof.
  intros Hm. unfold normalized, exif_transpose.
  destruct (exif_method (default 1 (im_orientation im))) as [t|] eqn:Ht.
  - simpl. split; [|done]. unfold transpose.
    destruct (im_size im), t; exact Hm.
  - by rewrite Ht.
Qed.

Lemma exif_safe_open_normalized b img :
  exif_safe_open b = inr img -> normalized img.
Proof.
  unfold exif_safe_open, rbind, ok.
  destruct (Image_open b) as [e|opened]; [done|].
  intros [= <-]. by apply exif_transpose_normalized.
Qed.

(** What a successful fetch returns is in the cache afterwards, and a
    failed one leaves the cache alone. *)
Lemma fetch_cache url w :
  match fst (fetch_image_from_url url w) with
  | inr img =>
      normalized img \/ cache_data w !! url = Some img
  | inl _ => True
  end /\
  (cache_data (snd (fetch_image_from_url url w)) = cache_data w \/
   exists img, cache_data w !! url = None /\ normalized img /\
     fst (fetch_image_from_url url w) = inr img /\
     cache_data (snd (fetch_image_from_url url w)) = <[url := img]> (cache_data w)).
Proof.
  destruct (cache_data w !! url) as [img|] eqn:Hc.
  - rewrite (fetch_hit _ _ _ Hc). simpl. split; [by right|by left].
  - rewrite (fetch_miss _ _ Hc).
    destruct (requests_get url (length (requests_sent w))) as [e|r];
      [by split; [|left]|].
    destruct (raise_for_status r) as [e|[]]; [by split; [|left]|].
    destruct (exif_safe_open (content r)) as [e|img] eqn:Ho;
      [by split; [|left]|].
    apply exif_safe_open_normalized in Ho. simpl.
    split; [by left|]. right. by exists img.
Qed.

Lemma fetch_stored url img w :
  fst (fetch_image_from_url url w) = inr img ->
  cache_data (snd (fetch_image_from_url url w)) !! url = Some img.
Proof.
  destruct (cache_data w !! url) as [img'|] eqn:Hc.
  - rewrite (fetch_hit _ _ _ Hc). simpl. by intros [= <-].
  - rewrite (fetch_miss _ _ Hc).
    destruct (requests_get url (length (requests_sent w))) as [e|r]; [done|].
    destruct (raise_for_status r) as [e|[]]; [done|].
    destruct (exif_safe_open (content r)) as [e|img'']; [done|].
    simpl. intros [= <-]. apply lookup_insert_eq.
Qed.

(** C6: when the request is answered with a 2xx status, the fetch returns
    exactly what decoding the body returns; the headers of the response,
    the content type among them, play no part, so the fetch succeeds
    whenever the body decodes and fails only when it does not. *)
Theorem fetch_ignores_content_type (url : string) (w : World) (r : Response) :
  cache_data w !! url = None ->
  requests_get url (length (requests_sent w)) = inr r ->
  200 <= status_code r < 300 ->
  fst (fetch_image_from_url url w) = exif_safe_open (content r) /\
  fst (fetch_image_from_url__wrapped url w) = exif_safe_open (content r) /\
  (forall img, exif_safe_open (content r) = inr img ->
     fetch_image_from_url url w =
     (inr img, mkWorld (session_state w) (<[url := img]> (cache_data w))
                       (requests_sent w ++ [url]) (page w))).
Proof.
  intros Hc Hr Hs.
  rewrite (fetch_miss _ _ Hc), wrapped_eq, Hr.
  rewrite raise_for_status_pass by lia.
  split; [by destruct (exif_safe_open (content r))|].
  split; [done|]. by intros img ->.
Qed.

(** C5, as the code has it: the fetch raises [HTTPError] for every final
    status from 400 to 599, whatever the body, and stores nothing; every
    other status (the 2xx range, and also 1xx, 3xx and codes from 600 on)
    passes the status check, and the outcome is that of decoding the body. *)
Theorem fetch_raises_on_error_status (url : string) (w : World) (r : Response) :
  cache_data w !! url = None ->
  requests_get url (length (requests_sent w)) = inr r ->
  (400 <= status_code r < 600 ->
     fetch_image_from_url url w = (inl (HTTPError (status_code r)), sent url w)) /\
  (~ (400 <= status_code r < 600) ->
     raise_for_status r = inr tt /\
     fst (fetch_image_from_url url w) = exif_safe_open (content r)).
Proof.
  intros Hc Hr. rewrite (fetch_miss _ _ Hc), Hr. split; intros Hs.
  - by rewrite raise_for_status_error.
  - rewrite raise_for_status_pass by done. split; [done|].
    by destruct (exif_safe_open (content r)).
Qed.

(** *** The two loads *)

Lemma load_from_file_eq f w :
  load_from_file f w =
  match read f with
  | inl e => (inl e, w)
  | inr b => (inr tt, loaded b "file" w)
  end.
Proof. unfold load_from_file, mbind, lift. by destruct (read f). Qed.

Lemma load_from_url_eq url w :
  load_from_url url w =
  match fetch_image_from_url url w with
  | (inl e, w1) => (inl e, w1)
  | (inr img, w1) =>
      match save_PNG img with
      | inl e => (inl e, w1)
      | inr buf => (inr tt, loaded buf "URL" w1)
      end
  end.
Proof.
  unfold load_from_url, mbind, lift.
  destruct (fetch_image_from_url url w) as [[e|img] w1]; [done|].
  by destruct (save_PNG img).
Qed.

Lemma main_file_upload_eq f w :
  main_file_upload (Some f) w =
  match read f with
  | inl e => (inr tt, shown (st_error "Failed to read uploaded image" e) w)
  | inr b => (inr tt, loaded b "file" w)
  end.
Proof.
  unfold main_file_upload, try_except. rewrite load_from_file_eq.
  by destruct (read f).
Qed.

Lemma main_url_input_eq url w :
  url <> ""%string ->
  main_url_input url true w =
  match load_from_url url w with
  | (inl e, w1) => (inr tt, shown (st_error "Failed to load from URL" e) w1)
  | (inr _, w1) => (inr tt, w1)
  end.
Proof.
  intros Hurl. unfold main_url_input, try_except.
  apply String.eqb_neq in Hurl. rewrite Hurl. simpl.
  by destruct (load_from_url url w) as [[e|[]] w1].
Qed.

Lemma main_url_input_idle url clicked w :
  clicked = false \/ url = ""%string -> main_url_input url clicked w = (inr tt, w).
Proof.
  unfold main_url_input. intros [->| ->]; [done|]. by rewrite andb_false_r.
Qed.

Lemma image_fields_loaded buf tag w :
  image_fields (loaded buf tag w) = (Some (VBytes buf), Some (VStr tag)).
Proof.
  unfold image_fields, loaded. simpl.
  rewrite lookup_insert_ne by done.
  by rewrite !lookup_insert_eq.
Qed.

(** A raising body of the URL load has not written to the session. *)
Lemma load_from_url_raises url w e :
  fst (load_from_url url w) = inl e ->
  session_state (snd (load_from_url url w)) = session_state w /\
  page (snd (load_from_url url w)) = page w.
Proof.
  rewrite load_from_url_eq. pose proof (fetch_session url w) as Hs.
  destruct (fetch_image_from_url url w) as [[e'|img] w1]; simpl in *; [done|].
  by destruct (save_PNG img).
Qed.

(** The ways the body of the URL load raises on a URL that is not
    memoized: no answer (unreachable host, timeout), an error status, a
    body that does not decode. *)
Lemma load_from_url_failures url w :
  cache_data w !! url = None ->
  (forall e, requests_get url (length (requests_sent w)) = inl e ->
     fst (load_from_url url w) = inl e) /\
  (forall r, requests_get url (length (requests_sent w)) = inr r ->
     400 <= status_code r < 600 ->
     fst (load_from_url url w) = inl (HTTPError (status_code r))) /\
  (forall r e, requests_get url (length (requests_sent w)) = inr r ->
     ~ (400 <= status_code r < 600) -> exif_safe_open (content r) = inl e ->
     fst (load_from_url url w) = inl e).
Proof.
  intros Hc. rewrite load_from_url_eq, (fetch_miss _ _ Hc).
  split; [by intros e ->|]. split.
  - intros r -> Hs. by rewrite raise_for_status_error.
  - intros r e -> Hs Ho. by rewrite raise_for_status_pass, Ho.
Qed.

(** C3, as the code has it: when the body of a load raises (the read of
    the uploaded file; or, for a URL, the request, the status check, the
    decoding of the body or the PNG encoding), the handler catches the
    exception, shows it, and the session state is what it was before the
    attempt.  Uploaded bytes are stored as they are read, without being
    decoded. *)
Theorem failed_load_keeps_session (a : attempt) (w : World) (e : exn) :
  fst (attempt_body a w) = inl e ->
  fst (run_attempt a w) = inr tt /\
  session_state (snd (run_attempt a w)) = session_state w /\
  image_fields (snd (run_attempt a w)) = image_fields w /\
  (a <> FromURL "" -> exists msg, page (snd (run_attempt a w)) = page w ++ [st_error msg e]).
Proof.
  destruct a as [f|url]; unfold attempt_body, run_attempt.
  - rewrite load_from_file_eq, main_file_upload_eq.
    destruct (read f) as [e'|b]; [|done]. simpl. intros [= ->].
    split; [done|]. split; [done|]. split; [done|]. by eexists.
  - intros Hraise. destruct (decide (url = ""%string)) as [->|Hurl].
    + rewrite main_url_input_idle by (by right). done.
    + rewrite (main_url_input_eq _ _ Hurl).
      destruct (load_from_url_raises _ _ _ Hraise) as [Hs Hp].
      destruct (load_from_url url w) as [[e'|[]] w1]; simpl in *; [|done].
      injection Hraise as ->. unfold image_fields. simpl. rewrite Hs, Hp.
      split; [done|]. split; [done|]. split; [done|]. by eexists.
Qed.

(** *** Invariants along a run *)

Lemma preserves_mret {A} P (a : A) : preserves P (mret a).
Proof. by intros w. Qed.

Lemma preserves_lift {A} P (r : result A) : preserves P (lift r).
Proof. by intros w. Qed.

Lemma preserves_has_key P k : preserves P (has_key k).
Proof. by intros w. Qed.

Lemma preserves_getattr P k : preserves P (getattr k).
Proof. intros w Hw. unfold getattr. by destruct (session_state w !! k). Qed.

Lemma preserves_show P el : page_blind P -> preserves P (show el).
Proof. intros HP w Hw. apply HP, Hw. Qed.

Lemma preserves_new_page P : page_blind P -> preserves P new_page.
Proof. intros HP w Hw. apply HP, Hw. Qed.

Lemma preserves_setattr P k v : session_blind P -> preserves P (setattr k v).
Proof. intros HP w Hw. apply HP, Hw. Qed.

Lemma preserves_bind {A B} P (m : M A) (k : A -> M B) :
  preserves P m -> (forall a, preserves P (k a)) -> preserves P (mbind m k).
Proof.
  intros Hm Hk w Hw. unfold mbind. specialize (Hm w Hw).
  destruct (m w) as [[e|a] w1]; [done|]. by apply Hk.
Qed.

Lemma preserves_try_except {A} P (body : M A) (handler : exn -> M A) :
  preserves P body -> (forall e, preserves P (handler e)) ->
  preserves P (try_except body handler).
Proof.
  intros Hb Hh w Hw. unfold try_except. specialize (Hb w Hw).
  destruct (body w) as [[e|a] w1]; [by apply Hh|done].
Qed.

Ltac preserved :=
  repeat first
    [ apply preserves_mret | apply preserves_lift | apply preserves_has_key
    | apply preserves_getattr
    | apply preserves_show; [assumption]
    | apply preserves_new_page; [assumption]
    | apply preserves_setattr; [assumption]
    | apply preserves_bind; [|intros ?]
    | apply preserves_try_except; [|intros ?]
    | match goal with
      | |- preserves _ (match ?x with _ => _ end) => destruct x
      end
    | assumption ].

Lemma main_decode_stored_preserves P :
  page_blind P -> preserves P main_decode_stored.
Proof. intros HP. unfold main_decode_stored. preserved. Qed.

Lemma main_show_preserves P image :
  page_blind P -> preserves P (main_show image).
Proof. intros HP. unfold main_show. preserved. Qed.

Lemma fetch_preserves Q url :
  cache_stable Q ->
  preserves (fun w => Q (cache_data w)) (fetch_image_from_url url).
Proof.
  intros HQ w Hw. destruct (fetch_cache url w) as [_ [->|Hnew]]; [done|].
  destruct Hnew as (img & Hc & Hn & _ & ->). by apply HQ.
Qed.

Lemma main_preserves_cache Q i :
  cache_stable Q -> preserves (fun w => Q (cache_data w)) (main i).
Proof.
  intros HQ.
  assert (Hp : page_blind (fun w => Q (cache_data w))) by (by intros w p).
  assert (Hs : session_blind (fun w => Q (cache_data w))) by (by intros w s).
  pose proof (fun url => fetch_preserves Q url HQ) as Hf.
  unfold main, main_session_defaults, main_file_upload, load_from_file,
    main_url_input, load_from_url.
  preserved; try apply Hf; try apply main_decode_stored_preserves;
    try apply main_show_preserves; done.
Qed.

Lemma process_step_cache Q w w' :
  cache_stable Q -> process_step w w' -> Q (cache_data w) -> Q (cache_data w').
Proof.
  intros HQ Hstep Hw. destruct Hstep as [url w|i w|s p w].
  - by apply (fetch_preserves Q url HQ).
  - by apply (main_preserves_cache Q i HQ).
  - done.
Qed.

Lemma process_cache Q w w' :
  cache_stable Q -> rtc process_step w w' -> Q (cache_data w) -> Q (cache_data w').
Proof.
  intros HQ Hsteps. induction Hsteps as [|w w1 w2 Hstep _ IH]; [done|].
  intros Hw. apply IH. by eapply process_step_cache.
Qed.

Lemma cache_stable_lookup url img :
  cache_stable (fun cache => cache !! url = Some img).
Proof.
  intros cache url' img' Hc Hfresh _.
  rewrite lookup_insert_ne; [done|]. intros ->. congruence.
Qed.

Lemma cache_stable_normalized : cache_stable cache_normalized.
Proof.
  intros cache url img Hc _ Hn url' img'.
  rewrite lookup_insert. case_decide; [by intros [= <-]|apply Hc].
Qed.

(** C8: once a fetch of [url] has returned an image, every later fetch of
    [url] in the process, whatever happened in between (other fetches,
    whole runs, writes to the session and the page), returns that image
    and leaves the world, the log of requests included, as it found it. *)
Theorem fetch_memoized (url : string) (img : Image) (w w' : World) :
  fst (fetch_image_from_url url w) = inr img ->
  rtc process_step (snd (fetch_image_from_url url w)) w' ->
  fetch_image_from_url url w' = (inr img, w') /\
  requests_sent (snd (fetch_image_from_url url w')) = requests_sent w'.
Proof.
  intros Hok Hlater.
  assert (Hc : cache_data w' !! url = Some img).
  { eapply (process_cache (fun cache => cache !! url = Some img));
      [apply cache_stable_lookup|exact Hlater|by apply fetch_stored]. }
  by rewrite (fetch_hit _ _ _ Hc).
Qed.

(** *** The two session fields *)


Lemma session_consistent_loaded buf tag w :
  tag = "file"%string \/ tag = "URL"%string ->
  session_consistent (loaded buf tag w) = true.
Proof.
  intros Htag. unfold session_consistent. rewrite image_fields_loaded.
  by destruct Htag as [-> | ->].
Qed.


Lemma main_file_upload_fields uploaded w :
  image_fields (snd (main_file_upload uploaded w)) = image_fields w \/
  exists f b, uploaded = Some f /\ read f = inr b /\
    image_fields (snd (main_file_upload uploaded w)) =
    (Some (VBytes b), Some (VStr "file")).
Proof.
  destruct uploaded as [f|]; [|by left].
  rewrite main_file_upload_eq. destruct (read f) as [e|b] eqn:Hr; [by left|].
  right. exists f, b. cbn [snd]. by rewrite image_fields_loaded.
Qed.

Lemma main_url_input_fields url clicked w :
  image_fields (snd (main_url_input url clicked w)) = image_fields w \/
  exists img buf, fst (fetch_image_from_url url w) = inr img /\
    save_PNG img = inr buf /\
    image_fields (snd (main_url_input url clicked w)) =
    (Some (VBytes buf), Some (VStr "URL")).
Proof.
  destruct clicked; [|left; by rewrite main_url_input_idle by (by left)].
  destruct (decide (url = ""%string)) as [->|Hurl];
    [left; by rewrite main_url_input_idle by (by right)|].
  rewrite (main_url_input_eq _ _ Hurl), load_from_url_eq.
  destruct (fetch_session url w) as [Hs Hp].
  destruct (fetch_image_from_url url w) as [[e|img] w1]; cbn [fst snd] in *.
  - left. unfold image_fields. simpl. by rewrite Hs.
  - destruct (save_PNG img) as [e|buf] eqn:Hsave; cbn [fst snd].
    + left. unfold image_fields. simpl. by rewrite Hs.
    + right. exists img, buf. by rewrite image_fields_loaded.
Qed.





(** *** What is stored after a URL load *)

Lemma exif_safe_open_png img buf :
  PNG_lossless -> im_mode img = RGB -> save_PNG img = inr buf ->
  exif_safe_open buf = inr (mkImage RGB (im_size img) (im_data img) None).
Proof.
  intros Hpng Hm Hsave. unfold exif_safe_open.
  by rewrite (Hpng img buf Hm Hsave).
Qed.

Lemma main_decode_stored_loaded buf tag w img :
  exif_safe_open buf = inr img ->
  main_decode_stored (loaded buf tag w) = (inr (Some img), loaded buf tag w).
Proof.
  intros Hopen. unfold main_decode_stored, mbind, getattr.
  assert (Hb : session_state (loaded buf tag w) !! "img_bytes" = Some (VBytes buf)).
  { pose proof (image_fields_loaded buf tag w) as Hf.
    unfold image_fields in Hf. by injection Hf. }
  rewrite Hb. unfold try_except, mbind, lift, mret. by rewrite Hopen.
Qed.

(** What the program adds to the codec.  After a URL load that went
    through, the session holds, with the tag "URL", the PNG encoding of the
    image the fetch returned, which is RGB with no transposition pending.
    The encoder and the decoder are Pillow's and are not derived here: for
    a codec that is lossless and writes no EXIF block ([PNG_lossless]),
    decoding the stored bytes for display gives the pixels of the fetched
    image, the second orientation pass changing nothing. *)
Lemma url_load_redecodes (url : string) (w : World) :
  PNG_lossless ->
  rtc process_step initial_world w ->
  fst (load_from_url url w) = inr tt ->
  exists img buf displayed,
    fst (fetch_image_from_url url w) = inr img /\
    normalized img /\
    save_PNG img = inr buf /\
    image_fields (snd (load_from_url url w)) = (Some (VBytes buf), Some (VStr "URL")) /\
    exif_safe_open buf = inr displayed /\
    same_bitmap displayed img /\
    exif_transpose displayed = displayed /\
    fst (main_decode_stored (snd (load_from_url url w))) = inr (Some displayed).
Proof.
  intros Hpng Hreach. rewrite load_from_url_eq.
  assert (Hcache : cache_normalized (cache_data w)).
  { eapply (process_cache cache_normalized);
      [apply cache_stable_normalized|exact Hreach|]. by intros u i. }
  destruct (fetch_cache url w) as [Hres _].
  destruct (fetch_image_from_url url w) as [[e|img] w1]; cbn [fst snd] in *; [done|].
  destruct (save_PNG img) as [e|buf] eqn:Hsave; cbn [fst snd]; [done|]. intros _.
  assert (Hn : normalized img).
  { destruct Hres as [Hn|Hc]; [done|by eapply Hcache]. }
  pose proof (exif_safe_open_png img buf Hpng (proj1 Hn) Hsave) as Hopen.
  exists img, buf, (mkImage RGB (im_size img) (im_data img) None).
  split; [done|]. split; [done|]. split; [done|].
  split; [apply image_fields_loaded|]. split; [done|].
  split; [unfold same_bitmap; simpl; by rewrite (proj1 Hn)|]. split; [done|].
  by rewrite (main_decode_stored_loaded _ _ _ _ Hopen).
Qed.

End Session.

(** ** The list of predictions shown *)

Lemma filter_Forall {A} (P : A -> Prop) (f : A -> bool) (l : list A) :
  Forall P l -> Forall P (List.filter f l).
Proof.
  induction 1 as [|a l Ha _ IH]; simpl; [constructor|].
  destruct (f a); [by constructor|done].
Qed.

Lemma filter_descending f l : descending l -> descending (List.filter f l).
Proof.
  induction 1 as [|a l _ IH Ha]; simpl; [constructor|].
  destruct (f a); [|done]. constructor; [done|by apply filter_Forall].
Qed.

Lemma firstn_descending K l : descending l -> descending (firstn K l).
Proof.
  intros Hl. revert K. induction Hl as [|a l _ IH Ha]; intros [|K]; simpl;
    try constructor; [apply IH|by apply Forall_take].
Qed.

Lemma filter_count T ranked :
  length (List.filter (fun p => Qle_bool T (snd p)) ranked) = count_at_least T ranked.
Proof.
  induction ranked as [|p rest IH]; simpl; [done|].
  destruct (Qle_bool T (snd p)); simpl; by rewrite IH.
Qed.

(** C2: the list shown is the ranked list without the entries below the
    threshold, cut to its first [K] entries; so it has
    [min K (count (p >= T))] entries, at most [K] and possibly none, no
    entry is below [T], and it is sorted by descending confidence when the
    ranked list is. *)
Theorem displayed_predictions_filtered (ranked : list (string * Q)) (T : Q) (K : nat) :
  displayed_predictions ranked T K =
    firstn K (List.filter (fun p => Qle_bool T (snd p)) ranked) /\
  length (displayed_predictions ranked T K) = Nat.min K (count_at_least T ranked) /\
  (length (displayed_predictions ranked T K) <= K)%nat /\
  Forall (fun p => (T <= snd p)%Q) (displayed_predictions ranked T K) /\
  (descending ranked -> descending (displayed_predictions ranked T K)).
Proof.
  unfold displayed_predictions. split; [done|].
  assert (Hlen : length (firstn K (List.filter (fun p => Qle_bool T (snd p)) ranked))
                 = Nat.min K (count_at_least T ranked)).
  { by rewrite length_take, filter_count. }
  split; [exact Hlen|]. split; [rewrite Hlen; lia|]. split.
  { apply Forall_take, Forall_forall. intros p Hp.
    apply list_elem_of_In, filter_In in Hp as [_ Hp]. by apply Qle_bool_iff. }
  intros Hd. by apply firstn_descending, filter_descending.
Qed.

(** * Further properties of the program *)

(** ** Decoding and normalization *)

Lemma to_rgb_length m (p : pixel) :
  length p = bands m -> length (to_rgb m p) = 3%nat.
Proof.
  destruct m; simpl; intros Hp; [done|done|].
  rewrite length_take, Hp. done.
Qed.

Lemma convert_RGB_data im :
  im_data (convert_RGB im) = map (map (to_rgb (im_mode im))) (im_data im).
Proof.
  unfold convert_RGB. simpl. destruct (im_mode im); try done.
  symmetry. etrans; [|apply map_id]. apply map_ext. intros row. apply map_id.
Qed.

Lemma convert_RGB_wf im : wf_image im -> wf_image (convert_RGB im).
Proof.
  intros (Hw & Hh & Hlen & Hrows). unfold wf_image.
  rewrite convert_RGB_data. simpl.
  split; [done|]. split; [done|]. split; [by rewrite length_map|].
  apply Forall_map. eapply Forall_impl; [exact Hrows|].
  intros row [Hrl Hpx]. simpl. split; [by rewrite length_map|].
  apply Forall_map. eapply Forall_impl; [exact Hpx|].
  intros p Hp. by apply to_rgb_length.
Qed.

Lemma transpose_wf im method :
  wf_image im ->
  wf_image (transpose im method) /\
  im_mode (transpose im method) = im_mode im /\
  im_size (transpose im method) =
    match method with
    | FLIP_LEFT_RIGHT | FLIP_TOP_BOTTOM | ROTATE_180 => im_size im
    | _ => (snd (im_size im), fst (im_size im))
    end.
Proof.
  intros Hwf. pose proof Hwf as (Hw & Hh & _).
  unfold transpose. destruct (im_size im) as [w h] eqn:Hsize. simpl in Hw, Hh.
  destruct method; simpl; (split; [|done]);
    apply wf_raster; try done; intros x y; by apply length_getpixel.
Qed.

Lemma exif_method_axes o :
  match exif_method o with
  | Some (FLIP_LEFT_RIGHT | FLIP_TOP_BOTTOM | ROTATE_180) => swaps_axes o = false
  | Some _ => swaps_axes o = true
  | None => swaps_axes o = false
  end.
Proof.
  unfold exif_method.
  repeat case_decide; subst; unfold swaps_axes;
    first [apply bool_decide_eq_true_2; lia | apply bool_decide_eq_false_2; lia].
Qed.

Lemma exif_transpose_wf im :
  wf_image im ->
  wf_image (exif_transpose im) /\
  im_mode (exif_transpose im) = im_mode im /\
  im_size (exif_transpose im) =
    if swaps_axes (default 1 (im_orientation im))
    then (snd (im_size im), fst (im_size im)) else im_size im.
Proof.
  intros Hwf. unfold exif_transpose.
  pose proof (exif_method_axes (default 1 (im_orientation im))) as Hax.
  destruct (exif_method (default 1 (im_orientation im))) as [method|].
  - destruct (transpose_wf im method Hwf) as (Ht & Hm & Hs).
    split; [exact Ht|]. simpl. split; [exact Hm|].
    rewrite Hs. by destruct method; rewrite Hax.
  - by rewrite Hax.
Qed.

Section Decoding.
Context {pillow : Pillow} {keras : Keras}.

(** X1: what [exif_safe_open] returns is a fixed point of the
    normalization: it is RGB, converting it to RGB again and applying the
    EXIF orientation again both give the same image back. *)
Theorem exif_safe_open_idempotent (img_file : bytes) (img : Image) :
  exif_safe_open img_file = inr img ->
  im_mode img = RGB /\
  convert_RGB img = img /\
  exif_transpose img = img /\
  exif_transpose (convert_RGB img) = img.
Proof.
  intros Hopen.
  pose proof (exif_safe_open_normalized _ _ Hopen) as Hn.
  destruct Hn as [Hm Ht].
  assert (Hc : convert_RGB img = img).
  { destruct img as [m s d o]. simpl in Hm. subst m. reflexivity. }
  assert (He : exif_transpose img = img) by (unfold exif_transpose; by rewrite Ht).
  split; [exact Hm|]. split; [exact Hc|]. split; [exact He|]. by rewrite Hc.
Qed.

(** X2: when the decoder returns a well-formed image of any mode,
    [exif_safe_open] returns a well-formed RGB image whose width and
    height are those of the decoded image, exchanged exactly when the EXIF
    orientation is 5, 6, 7 or 8; a missing tag counts as 1. *)
Theorem exif_safe_open_extents (img_file : bytes) (opened : Image) :
  Image_open img_file = inr opened -> wf_image opened ->
  exists img,
    exif_safe_open img_file = inr img /\
    wf_image img /\
    im_mode img = RGB /\
    im_size img =
      if swaps_axes (default 1 (im_orientation opened))
      then (snd (im_size opened), fst (im_size opened))
      else im_size opened.
Proof.
  intros Hopen Hwf. unfold exif_safe_open. rewrite Hopen. simpl.
  eexists. split; [reflexivity|].
  destruct (exif_transpose_wf (convert_RGB opened) (convert_RGB_wf opened Hwf))
    as (Ht & Hm & Hs).
  split; [exact Ht|]. split; [exact Hm|]. exact Hs.
Qed.

End Decoding.

(** ** More on cropping and preprocessing *)

Lemma getpixel_inside im x y :
  wf_image im -> 0 <= x < fst (im_size im) -> 0 <= y < snd (im_size im) ->
  exists row, im_data im !! Z.to_nat y = Some row /\
              row !! Z.to_nat x = Some (getpixel im x y).
Proof.
  intros (_ & _ & Hlen & Hrows) Hx Hy.
  destruct (lookup_lt_is_Some_2 (im_data im) (Z.to_nat y)) as [row Hrow]; [lia|].
  rewrite Forall_forall in Hrows.
  destruct (Hrows row) as [Hrl _]; [by eapply list_elem_of_lookup_2|].
  destruct (lookup_lt_is_Some_2 row (Z.to_nat x)) as [p Hp]; [lia|].
  exists row. split; [done|]. unfold getpixel.
  rewrite decide_True by lia. by rewrite Hrow, Hp.
Qed.

(** The crop box of a well-formed image, and what is cut out. *)
Lemma center_crop_square_eq img :
  wf_image img ->
  let w := fst (im_size img) in
  let h := snd (im_size img) in
  let side := Z.min w h in
  (0 <= (w - side) / 2 /\ (w - side) / 2 + side <= w /\
   0 <= (h - side) / 2 /\ (h - side) / 2 + side <= h /\ 0 < side) /\
  center_crop_square img =
  inr (mkImage (im_mode img) (side, side)
         (raster side side
            (fun x y => getpixel img ((w - side) / 2 + x) ((h - side) / 2 + y)))
         (im_orientation img)).
Proof.
  intros (Hw & Hh & _) w h side. fold w in Hw. fold h in Hh.
  assert (Hx : 0 <= (w - side) / 2 /\ 2 * ((w - side) / 2) <= w - side).
  { split; [apply Z.div_pos; lia|apply Z.mul_div_le; lia]. }
  assert (Hy : 0 <= (h - side) / 2 /\ 2 * ((h - side) / 2) <= h - side).
  { split; [apply Z.div_pos; lia|apply Z.mul_div_le; lia]. }
  split; [lia|].
  rewrite center_crop_square_box. fold w h side. unfold crop.
  rewrite !decide_False by lia.
  by replace ((w - side) / 2 + side - (w - side) / 2) with side by lia;
     replace ((h - side) / 2 + side - (h - side) / 2) with side by lia.
Qed.

Lemma center_crop_square_square img :
  wf_image img -> fst (im_size img) = snd (im_size img) ->
  center_crop_square img = inr img.
Proof.
  intros Hwf Hsq. destruct (center_crop_square_eq img Hwf) as [_ ->].
  rewrite <- Hsq, Z.min_id, Z.sub_diag. change (0 / 2) with 0.
  f_equal. destruct img as [m [w h] d o]. simpl in *. subst h. f_equal.
  etrans; [|exact (raster_getpixel (mkImage m (w, w) d o) Hwf)]. simpl.
  unfold raster. apply list_fmap_ext. intros _ y _.
  apply list_fmap_ext. intros _ x _. f_equal; lia.
Qed.

Lemma np_array_wf_any img w h :
  wf_image img -> im_size img = (w, h) ->
  shape (np_array img) = h :: w :: channel_axes (im_mode img) /\
  Z.of_nat (length (data (np_array img))) = h * w * Z.of_nat (bands (im_mode img)).
Proof.
  intros (Hw & Hh & Hlen & Hrows) Hsize. unfold np_array.
  rewrite Hsize in *. simpl in *.
  split; [by destruct (im_mode img)|].
  assert (Hpx : Forall (fun p : pixel => length p = bands (im_mode img))
                       (concat (im_data img))).
  { apply Forall_concat. eapply Forall_impl; [exact Hrows|]. by intros row [_ ?]. }
  assert (Hrl : Forall (fun row : list pixel => length row = Z.to_nat w) (im_data img)).
  { eapply Forall_impl; [exact Hrows|]. by intros row [? _]. }
  rewrite (concat_length_uniform _ _ Hpx).
  rewrite (concat_length_uniform (A:=pixel) _ _ Hrl), Hlen.
  lia.
Qed.

Section MorePreprocessing.
Context {pillow : Pillow} {keras : Keras}.

(** X4: cropping is idempotent: the centre crop of a centre crop is that
    crop again. *)
Theorem center_crop_square_idempotent (img out : Image) :
  wf_image img -> center_crop_square img = inr out ->
  center_crop_square out = inr out.
Proof.
  intros Hwf Hout.
  destruct (center_crop_square_wf img Hwf) as (out' & Hout' & _ & Hwf').
  rewrite Hout in Hout'. injection Hout' as <-.
  apply center_crop_square_square; [exact Hwf'|].
  destruct (center_crop_square_eq img Hwf) as [_ Heq].
  rewrite Hout in Heq. by injection Heq as ->.
Qed.

(** X5: the crop box lies inside the image, so the crop never pads: every
    pixel of the result is a stored pixel of the source, at the row and
    column shifted by the offsets. *)
Theorem center_crop_square_inside (img out : Image) (x y : Z) :
  wf_image img -> center_crop_square img = inr out ->
  let w := fst (im_size img) in
  let h := snd (im_size img) in
  let side := Z.min w h in
  0 <= x < side -> 0 <= y < side ->
  (0 <= (w - side) / 2 /\ (w - side) / 2 + side <= w /\
   0 <= (h - side) / 2 /\ (h - side) / 2 + side <= h) /\
  exists row,
    im_data img !! Z.to_nat ((h - side) / 2 + y) = Some row /\
    row !! Z.to_nat ((w - side) / 2 + x) = Some (getpixel out x y).
Proof.
  intros Hwf Hout w h side Hx Hy.
  destruct (center_crop_square_eq img Hwf) as [Hbox Heq].
  fold w h side in Hbox, Heq.
  split; [tauto|].
  rewrite Hout in Heq. injection Heq as ->.
  rewrite getpixel_raster by done.
  apply getpixel_inside; [done| |]; fold w h; lia.
Qed.

(** X6: for a well-formed image of any mode and a target between one
    pixel and the default 224 each way, the result has the axes
    (1, target height, target width) followed by the channel axis of the
    mode: none for a single band (the array then has three axes, not
    four), 3 for RGB, 4 for RGBA.  The target is (width, height), the array
    (height, width). *)
Theorem preprocess_image_axes (img : Image) (tw th : Z) (crop_flag : bool) :
  wf_image img -> 1 <= tw <= 224 -> 1 <= th <= 224 ->
  exists t,
    preprocess_image img (tw, th) crop_flag = inr t /\
    shape t = 1 :: th :: tw :: channel_axes (im_mode img) /\
    Z.of_nat (length (data t)) = th * tw * Z.of_nat (bands (im_mode img)).
Proof.
  intros Hwf Htw Hth. unfold preprocess_image.
  assert (Hcrop : exists c,
    (if crop_flag then center_crop_square img else ok img) = inr c /\
    im_mode c = im_mode img /\ wf_image c).
  { destruct crop_flag; [apply center_crop_square_wf, Hwf|by exists img]. }
  destruct Hcrop as (c & -> & Hcm & Hcwf). simpl.
  destruct (resize_wf c tw th LANCZOS Hcwf) as (r & -> & Hrs & Hrm & Hrwf);
    [lia|lia|].
  simpl. rewrite Hcm in Hrm.
  destruct (np_array_wf_any r tw th Hrwf Hrs) as [Hshape Hdata].
  rewrite Hrm in Hshape, Hdata.
  unfold expand_dims, preprocess_input, astype. simpl.
  eexists. split; [reflexivity|]. simpl. rewrite Hshape.
  split; [done|]. by rewrite !length_fmap, Hdata.
Qed.

(** X7: a target that the resampler refuses.  For a well-formed image
    whose sides fit a C int and either flag, the call raises
    [OverflowError] when a side of the target does not fit a C int,
    whatever the other side is, and [ValueError] when both sides fit and
    one is below one pixel. *)
Theorem preprocess_image_bad_target (img : Image) (tw th : Z) (crop_flag : bool) :
  wf_image img ->
  fits_int (fst (im_size img)) -> fits_int (snd (im_size img)) ->
  (~ (fits_int tw /\ fits_int th) ->
     preprocess_image img (tw, th) crop_flag = inl OverflowError) /\
  (fits_int tw -> fits_int th -> tw < 1 \/ th < 1 ->
     preprocess_image img (tw, th) crop_flag = inl ValueError).
Proof.
  intros Hwf Hfw Hfh. unfold preprocess_image.
  assert (Hcrop : exists c,
    (if crop_flag then center_crop_square img else ok img) = inr c /\
    wf_image c /\ fits_int (fst (im_size c)) /\ fits_int (snd (im_size c))).
  { destruct crop_flag; [|by exists img].
    destruct (center_crop_square_eq img Hwf) as [Hbox ->].
    destruct (center_crop_square_wf img Hwf) as (c & Hc & _ & Hcwf).
    destruct (center_crop_square_eq img Hwf) as [_ Heq].
    rewrite Hc in Heq. injection Heq as ->.
    eexists. split; [reflexivity|]. split; [exact Hcwf|].
    unfold fits_int in *. simpl. lia. }
  destruct Hcrop as (c & -> & (Hw & Hh & _) & Hcw & Hch). simpl.
  unfold resize. split.
  - intros Hbad. rewrite decide_False.
    + by rewrite decide_False.
    + intros Heq. rewrite Heq in Hcw, Hch. by apply Hbad.
  - intros Htw Hth Hlow. rewrite decide_False.
    + rewrite decide_True by done. by rewrite decide_True.
    + intros Heq. rewrite Heq in Hw, Hh. simpl in *. lia.
Qed.

(** X8: on a square image the crop flag makes no difference. *)
Theorem preprocess_image_square_flag (img : Image) (target : Z * Z) :
  wf_image img -> fst (im_size img) = snd (im_size img) ->
  preprocess_image img target true = preprocess_image img target false.
Proof.
  intros Hwf Hsq. unfold preprocess_image.
  by rewrite (center_crop_square_square img Hwf Hsq).
Qed.

(** X9: an image that already has the target size is not resampled: the
    array holds the band values of its pixels, row by row, converted and
    scaled, under a leading axis of length one.  With the crop flag set
    this needs the image to be square. *)
Theorem preprocess_image_same_size (img : Image) (crop_flag : bool) :
  wf_image img ->
  (crop_flag = true -> fst (im_size img) = snd (im_size img)) ->
  preprocess_image img (im_size img) crop_flag =
  inr (mkArray (1 :: shape (np_array img))
               (scale_input <$> (to_float32 <$> concat (concat (im_data img))))).
Proof.
  intros Hwf Hsq. unfold preprocess_image.
  assert (Hcrop : (if crop_flag then center_crop_square img else ok img) = inr img).
  { destruct crop_flag; [|done]. by apply center_crop_square_square, Hsq. }
  rewrite Hcrop. simpl. unfold resize. rewrite decide_True by done. simpl.
  unfold expand_dims, preprocess_input, astype, np_array.
  by destruct (im_size img).
Qed.

(** X3: decoding composes with preprocessing: whenever the decoder returns
    a well-formed image, of any mode, size and orientation, the image that
    [exif_safe_open] returns is preprocessed, with either flag, to an
    array of shape (1, 224, 224, 3). *)
Theorem decode_preprocess_shape (img_file : bytes) (opened : Image) (crop_flag : bool) :
  Image_open img_file = inr opened -> wf_image opened ->
  exists img t,
    exif_safe_open img_file = inr img /\
    preprocess_image img default_target_size crop_flag = inr t /\
    shape t = [1; 224; 224; 3].
Proof.
  intros Hopen Hwf. unfold exif_safe_open. rewrite Hopen. simpl.
  destruct (exif_transpose_wf (convert_RGB opened) (convert_RGB_wf opened Hwf))
    as (Hiwf & Hm & _).
  simpl in Hm.
  exists (exif_transpose (convert_RGB opened)).
  unfold preprocess_image, default_target_size.
  assert (Hcrop : exists c,
    (if crop_flag then center_crop_square (exif_transpose (convert_RGB opened))
     else ok (exif_transpose (convert_RGB opened))) = inr c /\
    im_mode c = RGB /\ wf_image c).
  { destruct crop_flag.
    - destruct (center_crop_square_wf _ Hiwf) as (c & ? & Hcm & ?).
      exists c. by rewrite Hcm.
    - by eexists. }
  destruct Hcrop as (c & -> & Hcm & Hcwf). simpl.
  destruct (resize_wf c 224 224 LANCZOS Hcwf) as (r & -> & Hrs & Hrm & Hrwf);
    [lia|lia|]. simpl.
  rewrite Hcm in Hrm.
  destruct (np_array_wf r 224 224 Hrwf Hrs Hrm) as [Hshape _].
  unfold expand_dims, preprocess_input, astype. simpl. rewrite Hshape. simpl.
  eexists. split; [reflexivity|]. by split.
Qed.

End MorePreprocessing.

(** ** More on the fetch *)

Section MoreSession.
Context {pillow : Pillow} {network : Network}.

(** The outcome of a fetch depends on the cache and on the requests sent
    so far, not on the session or the page. *)
Lemma fetch_same url w1 w2 :
  cache_data w1 = cache_data w2 -> requests_sent w1 = requests_sent w2 ->
  fst (fetch_image_from_url url w1) = fst (fetch_image_from_url url w2) /\
  cache_data (snd (fetch_image_from_url url w1)) =
    cache_data (snd (fetch_image_from_url url w2)) /\
  requests_sent (snd (fetch_image_from_url url w1)) =
    requests_sent (snd (fetch_image_from_url url w2)).
Proof.
  intros Hc Hr. destruct (cache_data w2 !! url) as [img|] eqn:H2.
  - assert (H1 : cache_data w1 !! url = Some img) by (by rewrite Hc).
    by rewrite (fetch_hit _ _ _ H1), (fetch_hit _ _ _ H2).
  - assert (H1 : cache_data w1 !! url = None) by (by rewrite Hc).
    rewrite (fetch_miss _ _ H1), (fetch_miss _ _ H2), Hr.
    destruct (requests_get url (length (requests_sent w2))) as [e|r];
      [by simpl; rewrite ?Hc, ?Hr|].
    destruct (raise_for_status r) as [e|[]]; [by simpl; rewrite ?Hc, ?Hr|].
    destruct (exif_safe_open (content r)); simpl; by rewrite ?Hc, ?Hr.
Qed.



(** ** Invariants of the cache *)

Ltac kept :=
  repeat first
    [ apply preserves_mret | apply preserves_lift | apply preserves_has_key
    | apply preserves_getattr
    | apply preserves_show; [assumption]
    | apply preserves_new_page; [assumption]
    | apply preserves_setattr; [assumption]
    | apply preserves_bind; [|intros ?]
    | apply preserves_try_except; [|intros ?]
    | match goal with
      | |- preserves _ (match ?x with _ => _ end) => destruct x
      end
    | assumption ].

Lemma main_preserves P i :
  page_blind P -> session_blind P ->
  (forall url, preserves P (fetch_image_from_url url)) ->
  preserves P (main i).
Proof.
  intros Hp Hs Hf.
  unfold main, main_session_defaults, main_file_upload, load_from_file,
    main_url_input, load_from_url.
  kept; try apply Hf; try apply main_decode_stored_preserves;
    try apply main_show_preserves; done.
Qed.

Lemma fetch_preserves_requested url :
  preserves cache_requested (fetch_image_from_url url).
Proof.
  intros w Hw other Hother.
  destruct (cache_data w !! url) as [img|] eqn:Hc.
  - rewrite (fetch_hit _ _ _ Hc) in Hother |- *. by apply Hw.
  - assert (Hsent : requests_sent (snd (fetch_image_from_url url w))
                    = requests_sent w ++ [url]).
    { rewrite (fetch_miss _ _ Hc).
      destruct (requests_get url (length (requests_sent w))) as [e|r]; [done|].
      destruct (raise_for_status r) as [e|[]]; [done|].
      by destruct (exif_safe_open (content r)). }
    rewrite Hsent. apply elem_of_app.
    destruct (decide (other = url)) as [->|Hne]; [right; by apply list_elem_of_singleton|].
    left. apply Hw.
    destruct (fetch_cache url w) as [_ [Heq|(img & _ & _ & _ & Heq)]];
      rewrite Heq in Hother; [done|].
    by rewrite lookup_insert_ne in Hother.
Qed.

Lemma process_requested w w' :
  rtc process_step w w' -> cache_requested w -> cache_requested w'.
Proof.
  induction 1 as [|w w1 w2 Hstep _ IH]; [done|]. intros Hw. apply IH.
  destruct Hstep as [url w|i w|s p w].
  - by apply fetch_preserves_requested.
  - apply main_preserves; [by intros ? ?|by intros ? ?| |done].
    apply fetch_preserves_requested.
  - exact Hw.
Qed.

(** X12: in every world the process can reach, each memoized image is RGB
    with no transposition pending, each memoized URL is in the log of
    requests, and so whatever a fetch returns, from the network or from
    the cache, is normalized. *)
Theorem memoized_images_invariant (w : World) :
  rtc process_step initial_world w ->
  cache_normalized (cache_data w) /\
  cache_requested w /\
  (forall url img, fst (fetch_image_from_url url w) = inr img -> normalized img).
Proof.
  intros Hreach.
  assert (Hn : cache_normalized (cache_data w)).
  { eapply (process_cache cache_normalized);
      [apply cache_stable_normalized|exact Hreach|]. by intros u i. }
  split; [exact Hn|]. split.
  - eapply process_requested; [exact Hreach|].
    intros url [img Himg]. simpl in Himg. by rewrite lookup_empty in Himg.
  - intros url img Hok. destruct (fetch_cache url w) as [Hres _].
    rewrite Hok in Hres. destruct Hres as [?|Hc]; [done|by eapply Hn].
Qed.

(** X18: a URL load that went through can be repeated at any later point
    of the process: it succeeds again without a request and assigns the
    same two fields, whatever the network would answer by then. *)
Theorem reload_memoized_url (url : string) (w w' : World) :
  fst (load_from_url url w) = inr tt ->
  rtc process_step (snd (load_from_url url w)) w' ->
  fst (load_from_url url w') = inr tt /\
  image_fields (snd (load_from_url url w')) = image_fields (snd (load_from_url url w)) /\
  requests_sent (snd (load_from_url url w')) = requests_sent w' /\
  cache_data (snd (load_from_url url w')) = cache_data w'.
Proof.
  rewrite !load_from_url_eq. intros Hok Hlater.
  pose proof (fetch_stored url) as Hstored. specialize (Hstored) with (w := w).
  destruct (fetch_image_from_url url w) as [[e|img] w1]; cbn [fst snd] in *; [done|].
  destruct (save_PNG img) as [e|buf] eqn:Hsave; cbn [fst snd] in *; [done|].
  assert (Hc : cache_data w' !! url = Some img).
  { eapply (process_cache (fun cache => cache !! url = Some img));
      [apply cache_stable_lookup|exact Hlater|]. simpl. by apply Hstored. }
  rewrite (fetch_hit _ _ _ Hc), Hsave. cbn [fst snd].
  by rewrite !image_fields_loaded.
Qed.

End MoreSession.

(** ** Whole runs of [main] *)

Section WholeRun.
Context {pillow : Pillow} {network : Network}.

Lemma main_session_defaults_eq w :
  main_session_defaults w =
  (inr tt, mkWorld (defaulted (session_state w)) (cache_data w)
                   (requests_sent w) (page w)).
Proof.
  destruct w as [s c r p].
  unfold main_session_defaults, defaulted, mbind, has_key, setattr, mret. simpl.
  destruct (s !! "img_bytes") as [vb|] eqn:Hb; simpl.
  - destruct (s !! "img_source") as [vs|] eqn:Hs; simpl; reflexivity.
  - rewrite lookup_insert_ne by done.
    destruct (s !! "img_source") as [vs|] eqn:Hs; simpl; reflexivity.
Qed.

Lemma defaulted_lookup s k :
  defaulted s !! k =
  if bool_decide (k = "img_bytes"%string \/ k = "img_source"%string)
  then Some (default VNone (s !! k)) else s !! k.
Proof.
  unfold defaulted.
  destruct (s !! "img_bytes") as [vb|] eqn:Hb;
    rewrite ?lookup_insert_ne by done;
    destruct (s !! "img_source") as [vs|] eqn:Hs;
    rewrite ?lookup_insert;
    repeat case_decide; subst;
    case_bool_decide as Hk;
    try (destruct Hk as [-> | ->]);
    rewrite ?Hb, ?Hs; try done; try congruence;
    exfalso; apply Hk; by (left + right).
Qed.

(** X14: the defaults fill in what is missing and nothing else: after
    them each of the two fields holds what it held, or [None] if it was
    absent; every other key of the session, the cache, the log of requests
    and the page are as before, and nothing is raised. *)
Theorem main_session_defaults_lookup (w : World) (k : string) :
  fst (main_session_defaults w) = inr tt /\
  session_state (snd (main_session_defaults w)) !! k =
    (if bool_decide (k = "img_bytes"%string \/ k = "img_source"%string)
     then Some (default VNone (session_state w !! k))
     else session_state w !! k) /\
  cache_data (snd (main_session_defaults w)) = cache_data w /\
  requests_sent (snd (main_session_defaults w)) = requests_sent w /\
  page (snd (main_session_defaults w)) = page w.
Proof.
  rewrite main_session_defaults_eq. simpl. split; [done|].
  split; [apply defaulted_lookup|done].
Qed.

Lemma main_file_upload_world uploaded w :
  fst (main_file_upload uploaded w) = inr tt /\
  cache_data (snd (main_file_upload uploaded w)) = cache_data w /\
  requests_sent (snd (main_file_upload uploaded w)) = requests_sent w /\
  exists errors, Forall is_error errors /\
    page (snd (main_file_upload uploaded w)) = page w ++ errors.
Proof.
  destruct uploaded as [f|].
  - rewrite main_file_upload_eq. destruct (read f) as [e|b]; simpl.
    + repeat split. eexists [_]. split; [|done]. by repeat constructor.
    + repeat split. exists []. split; [constructor|by rewrite app_nil_r].
  - simpl. repeat split. exists []. split; [constructor|by rewrite app_nil_r].
Qed.

Lemma main_url_input_world url clicked w :
  fst (main_url_input url clicked w) = inr tt /\
  exists errors, Forall is_error errors /\
    page (snd (main_url_input url clicked w)) = page w ++ errors.
Proof.
  assert (Hidle : main_url_input url clicked w = (inr tt, w) ->
    fst (main_url_input url clicked w) = inr tt /\
    exists errors, Forall is_error errors /\
      page (snd (main_url_input url clicked w)) = page w ++ errors).
  { intros ->. split; [done|]. exists []. split; [constructor|by rewrite app_nil_r]. }
  destruct clicked; [|apply Hidle, main_url_input_idle; by left].
  destruct (decide (url = ""%string)) as [->|Hurl];
    [apply Hidle, main_url_input_idle; by right|].
  rewrite (main_url_input_eq _ _ Hurl), load_from_url_eq.
  destruct (fetch_session url w) as [_ Hp].
  destruct (fetch_image_from_url url w) as [[e|img] w1]; cbn [fst snd] in *.
  - split; [done|]. eexists [_]. split; [|simpl; by rewrite Hp].
    by repeat constructor.
  - destruct (save_PNG img) as [e|buf]; cbn [fst snd].
    + split; [done|]. eexists [_]. split; [|simpl; by rewrite Hp].
      by repeat constructor.
    + split; [done|]. exists []. split; [constructor|]. simpl.
      by rewrite Hp, app_nil_r.
Qed.

Lemma acquired_fields i w :
  exists vb vs, image_fields (acquired i w) = (Some vb, Some vs).
Proof.
  unfold acquired.
  set (w0 := snd (new_page w)).
  assert (H1 : exists vb vs,
    image_fields (snd (main_session_defaults w0)) = (Some vb, Some vs)).
  { rewrite main_session_defaults_eq. unfold image_fields. simpl.
    rewrite !defaulted_lookup. simpl. by eexists _, _. }
  set (w1 := snd (main_session_defaults w0)) in *.
  assert (H2 : exists vb vs,
    image_fields (snd (main_file_upload (uploaded_file i) w1)) = (Some vb, Some vs)).
  { destruct (main_file_upload_fields (uploaded_file i) w1)
      as [->|(f & b & _ & _ & ->)]; [done|by eexists _, _]. }
  set (w2 := snd (main_file_upload (uploaded_file i) w1)) in *.
  destruct (main_url_input_fields (url_input i) (load_btn i) w2)
    as [->|(img & buf & _ & _ & ->)]; [done|by eexists _, _].
Qed.

Lemma acquired_page i w : Forall is_error (page (acquired i w)).
Proof.
  unfold acquired.
  set (w0 := snd (new_page w)).
  set (w1 := snd (main_session_defaults w0)).
  destruct (main_file_upload_world (uploaded_file i) w1)
    as (_ & _ & _ & errs1 & He1 & Hp1).
  set (w2 := snd (main_file_upload (uploaded_file i) w1)) in *.
  destruct (main_url_input_world (url_input i) (load_btn i) w2)
    as (_ & errs2 & He2 & Hp2).
  rewrite Hp2, Hp1. unfold w1. rewrite main_session_defaults_eq. simpl.
  by apply Forall_app.
Qed.

Lemma decode_show_eq w vb vs :
  image_fields w = (Some vb, Some vs) ->
  mbind main_decode_stored main_show w =
  (inr tt, mkWorld (session_state w) (cache_data w) (requests_sent w)
                   (page w ++ rendering vb vs)).
Proof.
  unfold image_fields. intros [= Hb Hs].
  unfold main_decode_stored, main_show, mbind, getattr, try_except, show, lift, mret,
    rendering.
  rewrite Hb. destruct vb as [|b|s]; simpl.
  - done.
  - destruct (exif_safe_open b) as [e|img]; simpl.
    + by rewrite <- app_assoc.
    + rewrite Hs. simpl. by rewrite <- app_assoc.
  - by rewrite <- app_assoc.
Qed.

Lemma main_acquired i w :
  load_model i = inr tt ->
  main i w = mbind main_decode_stored main_show (acquired i w).
Proof.
  intros Hload. unfold main, acquired.
  unfold mbind at 1. simpl.
  unfold mbind at 1. unfold lift at 1. rewrite Hload.
  set (w0 := mkWorld (session_state w) (cache_data w) (requests_sent w) []).
  unfold mbind at 1. rewrite main_session_defaults_eq. cbn [fst snd].
  set (w1 := mkWorld (defaulted (session_state w0)) (cache_data w0)
                     (requests_sent w0) (page w0)).
  unfold mbind at 1.
  destruct (main_file_upload_world (uploaded_file i) w1) as (Hok1 & _).
  destruct (main_file_upload (uploaded_file i) w1) as [[e|[]] w2]; [done|].
  cbn [fst snd]. unfold mbind at 1.
  destruct (main_url_input_world (url_input i) (load_btn i) w2) as (Hok2 & _).
  by destruct (main_url_input (url_input i) (load_btn i) w2) as [[e|[]] w3].
Qed.

(** X13: a run of [main] raises only if loading the model raises, and
    then before anything else happened: the exception comes out, the
    session, the cache and the log of requests are untouched.  When the
    model loads, the run returns normally on every input and in every
    world: each failure of a load or of the decoding is caught. *)
Theorem main_outcome (i : Inputs) (w : World) :
  (load_model i = inr tt -> fst (main i w) = inr tt) /\
  (forall e, load_model i = inl e ->
     main i w = (inl e, mkWorld (session_state w) (cache_data w) (requests_sent w) [])).
Proof.
  split.
  - intros Hload. rewrite (main_acquired _ _ Hload).
    destruct (acquired_fields i w) as (vb & vs & Hf).
    by rewrite (decode_show_eq _ _ _ Hf).
  - intros e Hload. unfold main, mbind, new_page, lift. simpl. by rewrite Hload.
Qed.

(** X17: what is shown is what is stored: after a run in which the model
    loaded, both fields are set (possibly to [None]), and an image is on
    the page exactly when the stored value is a byte string that
    [exif_safe_open] decodes to it, with the stored tag as its source. *)
Theorem main_shows_stored (i : Inputs) (w : World) :
  load_model i = inr tt ->
  exists vb vs,
    image_fields (snd (main i w)) = (Some vb, Some vs) /\
    (forall img src,
       st_image img src ∈ page (snd (main i w)) <->
       exists b, vb = VBytes b /\ exif_safe_open b = inr img /\ src = vs).
Proof.
  intros Hload. rewrite (main_acquired _ _ Hload).
  destruct (acquired_fields i w) as (vb & vs & Hf).
  rewrite (decode_show_eq _ _ _ Hf). exists vb, vs. split; [exact Hf|].
  intros img src. cbn [snd page]. rewrite elem_of_app. split.
  - intros [Herr|Hin].
    + pose proof (acquired_page i w) as Hpage. rewrite Forall_forall in Hpage.
      by destruct (Hpage _ Herr).
    + unfold rendering in Hin. destruct vb as [|b|s].
      * apply list_elem_of_singleton in Hin. done.
      * destruct (exif_safe_open b) as [e|img'] eqn:Hopen.
        -- apply elem_of_cons in Hin as [?|Hin]; [done|].
           apply list_elem_of_singleton in Hin. done.
        -- apply elem_of_cons in Hin as [[= -> ->]|Hin]; [by exists b|].
           apply list_elem_of_singleton in Hin. done.
      * apply elem_of_cons in Hin as [?|Hin]; [done|].
        apply list_elem_of_singleton in Hin. done.
  - intros (b & -> & Hopen & ->). right. unfold rendering. rewrite Hopen.
    apply elem_of_cons. by left.
Qed.

(** X15: a readable file in the uploader wins over whatever the session
    held: in a run without a URL load the two fields become the bytes read
    and "file", no request goes out, and the page is the image decoded
    from those bytes or, when they do not decode, the decode error. *)
Theorem main_upload_run (i : Inputs) (w : World) (f : UploadedFile) (b : bytes) :
  load_model i = inr tt ->
  uploaded_file i = Some f -> read f = inr b ->
  load_btn i = false \/ url_input i = ""%string ->
  image_fields (snd (main i w)) = (Some (VBytes b), Some (VStr "file")) /\
  page (snd (main i w)) = rendering (VBytes b) (VStr "file") /\
  requests_sent (snd (main i w)) = requests_sent w /\
  cache_data (snd (main i w)) = cache_data w.
Proof.
  intros Hload Hup Hread Hidle. rewrite (main_acquired _ _ Hload).
  assert (Ha : acquired i w =
    loaded b "file" (mkWorld (defaulted (session_state w)) (cache_data w)
                             (requests_sent w) [])).
  { unfold acquired. rewrite (main_url_input_idle _ _ _ Hidle). cbn [snd].
    rewrite Hup, main_file_upload_eq, Hread. cbn [snd].
    by rewrite main_session_defaults_eq. }
  assert (Hf : image_fields (acquired i w) = (Some (VBytes b), Some (VStr "file")))
    by (by rewrite Ha, image_fields_loaded).
  rewrite (decode_show_eq _ _ _ Hf). cbn [snd].
  split; [exact Hf|]. by rewrite Ha.
Qed.

(** X16: a URL load that goes through wins over the uploader: when the
    button is clicked on a URL whose fetch returns an image that encodes
    to PNG, the run leaves the PNG bytes and "URL" in the two fields
    whether or not a file was uploaded, and the image is memoized. *)
Theorem main_url_run (i : Inputs) (w : World) (img : Image) (buf : bytes) :
  load_model i = inr tt ->
  load_btn i = true -> url_input i <> ""%string ->
  fst (fetch_image_from_url (url_input i) w) = inr img ->
  save_PNG img = inr buf ->
  image_fields (snd (main i w)) = (Some (VBytes buf), Some (VStr "URL")) /\
  cache_data (snd (main i w)) !! url_input i = Some img.
Proof.
  intros Hload Hbtn Hurl Hfetch Hsave. rewrite (main_acquired _ _ Hload).
  set (w2 := snd (main_file_upload (uploaded_file i)
                    (snd (main_session_defaults (snd (new_page w)))))).
  assert (Hw2 : cache_data w2 = cache_data w /\ requests_sent w2 = requests_sent w).
  { unfold w2.
    destruct (main_file_upload_world (uploaded_file i)
                (snd (main_session_defaults (snd (new_page w)))))
      as (_ & -> & -> & _).
    by rewrite main_session_defaults_eq. }
  destruct Hw2 as [Hc2 Hr2].
  destruct (fetch_same (url_input i) w2 w Hc2 Hr2) as (Hfst & _).
  rewrite Hfetch in Hfst.
  assert (Ha : exists w3, acquired i w = loaded buf "URL" w3 /\
                          cache_data w3 !! url_input i = Some img).
  { unfold acquired. fold w2. rewrite Hbtn.
    rewrite (main_url_input_eq _ _ Hurl), load_from_url_eq.
    pose proof (fetch_stored (url_input i) img w2 Hfst) as Hst.
    destruct (fetch_image_from_url (url_input i) w2) as [[e|img'] w3];
      cbn [fst snd] in *; [done|].
    injection Hfst as ->. rewrite Hsave. cbn [snd]. by exists w3. }
  destruct Ha as (w3 & Ha & Hc3).
  assert (Hf : image_fields (acquired i w) = (Some (VBytes buf), Some (VStr "URL")))
    by (by rewrite Ha, image_fields_loaded).
  rewrite (decode_show_eq _ _ _ Hf). cbn [snd].
  split; [exact Hf|]. by rewrite Ha.
Qed.

End WholeRun.

(** * The program on concrete inputs *)

Lemma small_pillow_lossless : PNG_lossless (pillow := small_pillow).
Proof.
  intros im buf Hm. simpl. rewrite Hm. case_decide as Hup; [|done].
  intros [= <-]. by rewrite Hup.
Qed.

(** The sideways photo, opened, stands upright. *)
Example exif_safe_open_photo :
  exif_safe_open (pillow := small_pillow) photo_jpg =
  inr (mkImage RGB (2, 3)
         [ [ [11; 21; 31]; [10; 20; 30] ];
           [ [41; 51; 61]; [40; 50; 60] ];
           [ [71; 81; 91]; [70; 80; 90] ] ] None).
Proof. reflexivity. Qed.

(** A 3000 x 1500 upload is cropped to 1500 x 1500, 750 columns off each
    side. *)
Example center_crop_3000_1500 :
  let img := mkImage RGB (3000, 1500) (raster 3000 1500 (fun _ _ => [0; 0; 0])) None in
  exists out, center_crop_square img = crop img (750, 0, 2250, 1500) /\
    center_crop_square img = inr out /\ im_size out = (1500, 1500).
Proof.
  intros img.
  assert (Hwf : wf_image img) by (by apply wf_raster).
  destruct (center_crop_square_wf img Hwf) as (out & Hout & _).
  exists out. split; [by rewrite center_crop_square_box|]. split; [done|].
  rewrite center_crop_square_box in Hout. by injection Hout as <-.
Qed.

Lemma preprocess_image_shape_upright :
  wf_image upright /\ im_mode upright = RGB /\
  exists t,
    preprocess_image (pillow := small_pillow) (keras := rational_keras)
      upright default_target_size true = inr t /\
    shape t = [1; 224; 224; 3] /\
    Z.of_nat (length (data t)) = 1 * 224 * 224 * 3.
Proof.
  assert (Hwf : wf_image upright) by (refine (bool_decide_unpack _ _); vm_compute; exact I).
  split; [exact Hwf|]. split; [reflexivity|].
  exact (preprocess_image_shape (pillow := small_pillow) (keras := rational_keras)
           upright true Hwf eq_refl).
Defined.

Lemma preprocess_image_pure_photo :
  same_bitmap photo (mkImage RGBA (3, 2) (im_data photo) None) /\
  preprocess_image (pillow := small_pillow) (keras := rational_keras) photo (2, 2) true =
  preprocess_image (pillow := small_pillow) (keras := rational_keras)
    (mkImage RGBA (3, 2) (im_data photo) None) (2, 2) true.
Proof.
  assert (Hsame : same_bitmap photo (mkImage RGBA (3, 2) (im_data photo) None))
    by (repeat split; reflexivity).
  split; [exact Hsame|].
  exact (proj1 (preprocess_image_pure (pillow := small_pillow) (keras := rational_keras)
                  photo _ (2, 2) true Hsame)).
Defined.

Lemma center_crop_square_photo :
  wf_image photo /\
  exists out, center_crop_square photo = inr out /\ im_size out = (2, 2).
Proof.
  assert (Hwf : wf_image photo) by (refine (bool_decide_unpack _ _); vm_compute; exact I).
  split; [exact Hwf|].
  destruct (center_crop_square_centered photo 3 2 Hwf eq_refl) as (out & Hout & Hsize & _).
  exists out. split; [exact Hout|exact Hsize].
Defined.

(** Top-K 3 with the thresholds 0.05 and 0.5. *)
Example displayed_three :
  displayed_predictions scenario_ranked (5 # 100) 3 =
  [("tabby", 6 # 10); ("tiger_cat", 3 # 10); ("lynx", 8 # 100)].
Proof. reflexivity. Qed.

Example displayed_one :
  displayed_predictions scenario_ranked (5 # 10) 3 = [("tabby", 6 # 10)].
Proof. reflexivity. Qed.

(** No entry reaches 0.7: nothing is shown. *)
Example displayed_none :
  displayed_predictions scenario_ranked (7 # 10) 3 = [].
Proof. reflexivity. Qed.

Lemma scenario_ranked_descending : descending scenario_ranked.
Proof.
  unfold descending, scenario_ranked.
  repeat constructor; unfold Qle; simpl; lia.
Defined.

Lemma displayed_predictions_scenario :
  descending scenario_ranked /\
  descending (displayed_predictions scenario_ranked (5 # 10) 3) /\
  length (displayed_predictions scenario_ranked (5 # 10) 3) = 1%nat.
Proof.
  pose proof (displayed_predictions_filtered scenario_ranked (5 # 10) 3)
    as (_ & Hlen & _ & _ & Hsorted).
  split; [exact scenario_ranked_descending|].
  split; [exact (Hsorted scenario_ranked_descending)|exact Hlen].
Defined.

(** A 404 while the upright picture is shown: the picture stays. *)
Lemma failed_load_keeps_session_404 :
  fst (attempt_body (pillow := small_pillow) (network := small_network)
         (FromURL "https://example.org/missing") showing_upright)
    = inl (HTTPError 404) /\
  image_fields (snd (run_attempt (pillow := small_pillow) (network := small_network)
                       (FromURL "https://example.org/missing") showing_upright))
    = image_fields showing_upright.
Proof.
  assert (Hfail : fst (attempt_body (pillow := small_pillow) (network := small_network)
                         (FromURL "https://example.org/missing") showing_upright)
                  = inl (HTTPError 404)) by reflexivity.
  split; [exact Hfail|].
  exact (proj1 (proj2 (proj2 (failed_load_keeps_session
    (pillow := small_pillow) (network := small_network) _ _ _ Hfail)))).
Defined.

(** The whole run of that 404: the error is on the page, above the picture
    that was there before. *)
Example main_404_keeps_picture :
  page (snd (main (pillow := small_pillow) (network := small_network)
               missing_run showing_upright)) =
  [ st_error "Failed to load from URL" (HTTPError 404);
    st_image upright (VStr "URL");
    st_info "Clicking Classify will be enabled in the next step." ].
Proof. reflexivity. Qed.

(** The whole run on a 200 answer declared as text/html: the picture is
    on the page. *)
Example main_shows_mislabelled_photo :
  page (snd (main (pillow := small_pillow) (network := small_network)
               first_run initial_world)) =
  [ st_image upright (VStr "URL");
    st_info "Clicking Classify will be enabled in the next step." ].
Proof. reflexivity. Qed.

(** Counterexample to C3 as stated: garbage is uploaded while the upright
    picture is shown.  The bytes do not decode, yet both session fields are
    overwritten and the next decode for display fails. *)
Lemma malformed_upload_replaces_image :
  let a := FromFile {| read := inr garbage |} in
  let w' := snd (run_attempt (pillow := small_pillow) (network := small_network)
                   a showing_upright) in
  exif_safe_open (pillow := small_pillow) garbage = inl UnidentifiedImageError /\
  fst (main_decode_stored (pillow := small_pillow) showing_upright) = inr (Some upright) /\
  image_fields showing_upright = (Some (VBytes upright_png), Some (VStr "URL")) /\
  image_fields w' = (Some (VBytes garbage), Some (VStr "file")) /\
  image_fields w' <> image_fields showing_upright /\
  fst (main_decode_stored (pillow := small_pillow) w') = inr None.
Proof.
  intros a w'. repeat split; try reflexivity.
  vm_compute. discriminate.
Qed.

Lemma fetch_raises_on_error_status_404 :
  let r := mkResponse 404 [("content-type", "text/html")] garbage in
  cache_data initial_world !! "https://example.org/missing" = None /\
  requests_get (Network := small_network) "https://example.org/missing"
    (length (requests_sent initial_world)) = inr r /\
  400 <= status_code r < 600 /\
  fetch_image_from_url (pillow := small_pillow) (network := small_network)
    "https://example.org/missing" initial_world
  = (inl (HTTPError 404), sent "https://example.org/missing" initial_world).
Proof.
  intros r.
  assert (Hmiss : cache_data initial_world !! "https://example.org/missing" = None)
    by reflexivity.
  assert (Hget : requests_get (Network := small_network) "https://example.org/missing"
                   (length (requests_sent initial_world)) = inr r) by reflexivity.
  assert (Hstatus : 400 <= status_code r < 600) by (simpl; lia).
  split; [exact Hmiss|]. split; [exact Hget|]. split; [exact Hstatus|].
  exact (proj1 (fetch_raises_on_error_status (pillow := small_pillow)
                  (network := small_network) _ _ r Hmiss Hget) Hstatus).
Defined.

(** Counterexample to C5 as stated: a final status of 300 is outside the
    2xx range, passes the status check, and the fetch returns the image of
    the body. *)
Lemma status_300_is_not_raised :
  let r := mkResponse 300 [("content-type", "image/png")] upright_png in
  requests_get (Network := small_network) "https://example.org/choices" 0 = inr r /\
  ~ (200 <= status_code r < 300) /\
  raise_for_status r = inr tt /\
  fst (fetch_image_from_url (pillow := small_pillow) (network := small_network)
         "https://example.org/choices" initial_world) = inr upright.
Proof.
  intros r. split; [reflexivity|]. split; [simpl; lia|]. split; reflexivity.
Qed.

(** A 200 answer that declares text/html and carries the photo. *)
Lemma fetch_ignores_content_type_photo :
  let r := mkResponse 200 [("Content-Type", "text/html")] photo_jpg in
  cache_data initial_world !! "https://example.org/photo" = None /\
  requests_get (Network := small_network) "https://example.org/photo"
    (length (requests_sent initial_world)) = inr r /\
  200 <= status_code r < 300 /\
  headers_get (headers r) "content-type" "" = "text/html"%string /\
  fst (fetch_image_from_url (pillow := small_pillow) (network := small_network)
         "https://example.org/photo" initial_world) = inr upright.
Proof.
  intros r.
  assert (Hmiss : cache_data initial_world !! "https://example.org/photo" = None)
    by reflexivity.
  assert (Hget : requests_get (Network := small_network) "https://example.org/photo"
                   (length (requests_sent initial_world)) = inr r) by reflexivity.
  assert (Hstatus : 200 <= status_code r < 300) by (simpl; lia).
  split; [exact Hmiss|]. split; [exact Hget|]. split; [exact Hstatus|].
  split; [reflexivity|].
  exact (eq_trans (proj1 (fetch_ignores_content_type (pillow := small_pillow)
                            (network := small_network) _ _ r Hmiss Hget Hstatus))
                  eq_refl).
Defined.


(** The photo is fetched once; the server then answers 404, and a second
    fetch after a whole run still returns the picture without a request. *)
Lemma fetch_memoized_photo :
  let fetch := fetch_image_from_url (pillow := small_pillow) (network := small_network)
                 "https://example.org/photo" in
  let w1 := snd (fetch initial_world) in
  let w2 := snd (main (pillow := small_pillow) (network := small_network) first_run w1) in
  fst (fetch initial_world) = inr upright /\
  rtc (process_step (pillow := small_pillow) (network := small_network)) w1 w2 /\
  requests_get (Network := small_network) "https://example.org/photo"
    (length (requests_sent w2)) = inr (mkResponse 404 [] []) /\
  fetch w2 = (inr upright, w2).
Proof.
  intros fetch w1 w2.
  assert (Hok : fst (fetch initial_world) = inr upright) by reflexivity.
  assert (Hlater : rtc (process_step (pillow := small_pillow) (network := small_network))
                     w1 w2) by (apply rtc_once, step_main).
  split; [exact Hok|]. split; [exact Hlater|]. split; [reflexivity|].
  exact (proj1 (fetch_memoized (pillow := small_pillow) (network := small_network)
                  "https://example.org/photo" upright initial_world w2 Hok Hlater)).
Defined.

Lemma url_load_redecodes_photo :
  PNG_lossless (pillow := small_pillow) /\
  rtc (process_step (pillow := small_pillow) (network := small_network))
    initial_world initial_world /\
  fst (load_from_url (pillow := small_pillow) (network := small_network)
         "https://example.org/photo" initial_world) = inr tt /\
  exists img buf displayed,
    fst (fetch_image_from_url (pillow := small_pillow) (network := small_network)
           "https://example.org/photo" initial_world) = inr img /\
    save_PNG (Pillow := small_pillow) img = inr buf /\
    exif_safe_open (pillow := small_pillow) buf = inr displayed /\
    same_bitmap displayed img.
Proof.
  assert (Hload : fst (load_from_url (pillow := small_pillow) (network := small_network)
                         "https://example.org/photo" initial_world) = inr tt)
    by reflexivity.
  split; [exact small_pillow_lossless|]. split; [apply rtc_refl|].
  split; [exact Hload|].
  destruct (url_load_redecodes (pillow := small_pillow) (network := small_network)
              "https://example.org/photo" initial_world small_pillow_lossless
              (rtc_refl _ _) Hload)
    as (img & buf & displayed & Hf & _ & Hs & _ & Ho & Hb & _).
  exists img, buf, displayed. repeat split; try assumption; apply Hb.
Defined.

(** ** The further properties on concrete inputs *)

Lemma photo_wf : wf_image photo.
Proof. refine (bool_decide_unpack _ _); vm_compute; exact I. Defined.

Lemma upright_wf : wf_image upright.
Proof. refine (bool_decide_unpack _ _); vm_compute; exact I. Defined.

Lemma exif_safe_open_idempotent_photo :
  exif_safe_open (pillow := small_pillow) photo_jpg = inr upright /\
  convert_RGB upright = upright /\ exif_transpose upright = upright.
Proof.
  assert (Hopen : exif_safe_open (pillow := small_pillow) photo_jpg = inr upright)
    by reflexivity.
  destruct (exif_safe_open_idempotent (pillow := small_pillow) photo_jpg upright Hopen)
    as (_ & Hc & Ht & _).
  split; [exact Hopen|]. split; [exact Hc|exact Ht].
Defined.

Lemma exif_safe_open_extents_photo :
  Image_open (Pillow := small_pillow) photo_jpg = inr photo /\
  wf_image photo /\ im_size photo = (3, 2) /\ im_orientation photo = Some 6 /\
  exists img, exif_safe_open (pillow := small_pillow) photo_jpg = inr img /\
    wf_image img /\ im_size img = (2, 3).
Proof.
  assert (Hopen : Image_open (Pillow := small_pillow) photo_jpg = inr photo)
    by reflexivity.
  split; [exact Hopen|]. split; [exact photo_wf|]. split; [reflexivity|].
  split; [reflexivity|].
  destruct (exif_safe_open_extents (pillow := small_pillow) photo_jpg photo
              Hopen photo_wf) as (img & Himg & Hwf & _ & Hsize).
  exists img. split; [exact Himg|]. split; [exact Hwf|exact Hsize].
Defined.

Lemma decode_preprocess_shape_photo :
  Image_open (Pillow := small_pillow) photo_jpg = inr photo /\ wf_image photo /\
  exists img t,
    exif_safe_open (pillow := small_pillow) photo_jpg = inr img /\
    preprocess_image (pillow := small_pillow) (keras := rational_keras)
      img default_target_size true = inr t /\
    shape t = [1; 224; 224; 3].
Proof.
  assert (Hopen : Image_open (Pillow := small_pillow) photo_jpg = inr photo)
    by reflexivity.
  split; [exact Hopen|]. split; [exact photo_wf|].
  exact (decode_preprocess_shape (pillow := small_pillow) (keras := rational_keras)
           photo_jpg photo true Hopen photo_wf).
Defined.

Lemma center_crop_square_idempotent_photo :
  wf_image photo /\
  exists out, center_crop_square photo = inr out /\ im_size out = (2, 2) /\
    center_crop_square out = inr out.
Proof.
  split; [exact photo_wf|]. eexists. split; [reflexivity|]. split; [reflexivity|].
  exact (center_crop_square_idempotent photo _ photo_wf eq_refl).
Defined.

Lemma center_crop_square_inside_photo :
  wf_image photo /\
  exists out, center_crop_square photo = inr out /\
    getpixel out 1 1 = [41; 51; 61; 255] /\
    exists row, im_data photo !! 1%nat = Some row /\
                row !! 1%nat = Some (getpixel out 1 1).
Proof.
  split; [exact photo_wf|]. eexists. split; [reflexivity|]. split; [reflexivity|].
  refine (proj2 (center_crop_square_inside photo _ 1 1 photo_wf eq_refl _ _));
    simpl; lia.
Defined.

Lemma preprocess_image_axes_grey :
  let grey := mkImage L (2, 1) [ [ [7]; [9] ] ] None in
  wf_image grey /\ 1 <= 5 <= 224 /\ 1 <= 4 <= 224 /\
  exists t,
    preprocess_image (pillow := small_pillow) (keras := rational_keras)
      grey (5, 4) false = inr t /\
    shape t = [1; 4; 5].
Proof.
  intros grey.
  assert (Hwf : wf_image grey) by (refine (bool_decide_unpack _ _); vm_compute; exact I).
  assert (H5 : 1 <= 5 <= 224) by lia. assert (H4 : 1 <= 4 <= 224) by lia.
  split; [exact Hwf|]. split; [exact H5|]. split; [exact H4|].
  destruct (preprocess_image_axes (pillow := small_pillow) (keras := rational_keras)
              grey 5 4 false Hwf H5 H4) as (t & Ht & Hshape & _).
  exists t. split; [exact Ht|exact Hshape].
Defined.

Lemma preprocess_image_bad_target_photo :
  wf_image photo /\
  fits_int (fst (im_size photo)) /\ fits_int (snd (im_size photo)) /\
  ~ (fits_int 0 /\ fits_int (2 ^ 31)) /\
  preprocess_image (pillow := small_pillow) (keras := rational_keras)
    photo (0, 2 ^ 31) true = inl OverflowError /\
  fits_int 0 /\ fits_int 224 /\ (0 < 1 \/ 224 < 1) /\
  preprocess_image (pillow := small_pillow) (keras := rational_keras)
    photo (0, 224) true = inl ValueError.
Proof.
  assert (Hfw : fits_int (fst (im_size photo))) by (unfold fits_int; simpl; lia).
  assert (Hfh : fits_int (snd (im_size photo))) by (unfold fits_int; simpl; lia).
  assert (Hover : ~ (fits_int 0 /\ fits_int (2 ^ 31)))
    by (unfold fits_int; intros [_ [_ H]]; lia).
  assert (H0 : fits_int 0) by (unfold fits_int; lia).
  assert (H224 : fits_int 224) by (unfold fits_int; lia).
  assert (Hlow : 0 < 1 \/ 224 < 1) by (left; lia).
  split; [exact photo_wf|]. split; [exact Hfw|]. split; [exact Hfh|].
  split; [exact Hover|].
  split; [exact (proj1 (preprocess_image_bad_target (pillow := small_pillow)
                          (keras := rational_keras) photo 0 (2 ^ 31) true
                          photo_wf Hfw Hfh) Hover)|].
  split; [exact H0|]. split; [exact H224|]. split; [exact Hlow|].
  exact (proj2 (preprocess_image_bad_target (pillow := small_pillow)
                  (keras := rational_keras) photo 0 224 true
                  photo_wf Hfw Hfh) H0 H224 Hlow).
Defined.

Lemma preprocess_image_square_flag_dot :
  let dot := mkImage RGB (1, 1) [ [ [1; 2; 3] ] ] None in
  wf_image dot /\ fst (im_size dot) = snd (im_size dot) /\
  preprocess_image (pillow := small_pillow) (keras := rational_keras) dot (2, 2) true =
  preprocess_image (pillow := small_pillow) (keras := rational_keras) dot (2, 2) false.
Proof.
  intros dot.
  assert (Hwf : wf_image dot) by (refine (bool_decide_unpack _ _); vm_compute; exact I).
  split; [exact Hwf|]. split; [reflexivity|].
  exact (preprocess_image_square_flag (pillow := small_pillow) (keras := rational_keras)
           dot (2, 2) Hwf eq_refl).
Defined.

Lemma preprocess_image_same_size_dot :
  let dot := mkImage RGB (1, 1) [ [ [1; 2; 3] ] ] None in
  wf_image dot /\ (true = true -> fst (im_size dot) = snd (im_size dot)) /\
  preprocess_image (pillow := small_pillow) (keras := rational_keras) dot (1, 1) true =
  inr (mkArray [1; 1; 1; 3]
         [ (inject_Z 1 * (2 # 255) - 1)%Q; (inject_Z 2 * (2 # 255) - 1)%Q;
           (inject_Z 3 * (2 # 255) - 1)%Q ]).
Proof.
  intros dot.
  assert (Hwf : wf_image dot) by (refine (bool_decide_unpack _ _); vm_compute; exact I).
  assert (Hsq : true = true -> fst (im_size dot) = snd (im_size dot))
    by (intros _; reflexivity).
  split; [exact Hwf|]. split; [exact Hsq|].
  exact (preprocess_image_same_size (pillow := small_pillow) (keras := rational_keras)
           dot true Hwf Hsq).
Defined.



Lemma memoized_images_invariant_first_run :
  let w := snd (main (pillow := small_pillow) (network := small_network)
                  first_run initial_world) in
  rtc (process_step (pillow := small_pillow) (network := small_network)) initial_world w /\
  cache_data w !! "https://example.org/photo" = Some upright /\
  normalized upright /\
  "https://example.org/photo"%string ∈ requests_sent w.
Proof.
  intros w.
  assert (Hreach : rtc (process_step (pillow := small_pillow) (network := small_network))
                     initial_world w) by (apply rtc_once, step_main).
  assert (Hc : cache_data w !! "https://example.org/photo" = Some upright) by reflexivity.
  destruct (memoized_images_invariant (pillow := small_pillow) (network := small_network)
              w Hreach) as (Hn & Hr & _).
  split; [exact Hreach|]. split; [exact Hc|].
  split; [exact (Hn _ _ Hc)|]. apply Hr. rewrite Hc. by eexists.
Defined.

Lemma reload_memoized_url_photo :
  let load := load_from_url (pillow := small_pillow) (network := small_network)
                "https://example.org/photo" in
  let w1 := snd (load initial_world) in
  let w2 := snd (main (pillow := small_pillow) (network := small_network) missing_run w1) in
  fst (load initial_world) = inr tt /\
  rtc (process_step (pillow := small_pillow) (network := small_network)) w1 w2 /\
  fst (load w2) = inr tt /\
  image_fields (snd (load w2)) = (Some (VBytes upright_png), Some (VStr "URL")) /\
  requests_sent (snd (load w2)) = requests_sent w2.
Proof.
  intros load w1 w2.
  assert (Hok : fst (load initial_world) = inr tt) by reflexivity.
  assert (Hlater : rtc (process_step (pillow := small_pillow) (network := small_network))
                     w1 w2) by (apply rtc_once, step_main).
  destruct (reload_memoized_url (pillow := small_pillow) (network := small_network)
              "https://example.org/photo" initial_world w2 Hok Hlater)
    as (Hagain & Hfields & Hsent & _).
  split; [exact Hok|]. split; [exact Hlater|]. split; [exact Hagain|].
  split; [exact (eq_trans Hfields eq_refl)|exact Hsent].
Defined.

Lemma main_outcome_first_run :
  load_model first_run = inr tt /\
  fst (main (pillow := small_pillow) (network := small_network)
         first_run initial_world) = inr tt.
Proof.
  assert (Hload : load_model first_run = inr tt) by reflexivity.
  split; [exact Hload|].
  exact (proj1 (main_outcome (pillow := small_pillow) (network := small_network)
                  first_run initial_world) Hload).
Defined.

Lemma main_shows_stored_first_run :
  load_model first_run = inr tt /\
  exists vb vs,
    image_fields (snd (main (pillow := small_pillow) (network := small_network)
                         first_run initial_world)) = (Some vb, Some vs) /\
    (st_image upright (VStr "URL")
       ∈ page (snd (main (pillow := small_pillow) (network := small_network)
                      first_run initial_world)) ->
     exists b, vb = VBytes b /\
               exif_safe_open (pillow := small_pillow) b = inr upright).
Proof.
  assert (Hload : load_model first_run = inr tt) by reflexivity.
  split; [exact Hload|].
  destruct (main_shows_stored (pillow := small_pillow) (network := small_network)
              first_run initial_world Hload) as (vb & vs & Hf & Hshown).
  exists vb, vs. split; [exact Hf|].
  intros Hin. destruct (proj1 (Hshown _ _) Hin) as (b & Hb & Hopen & _).
  exists b. split; [exact Hb|exact Hopen].
Defined.

(** The uploader holds garbage while the upright picture is shown and no
    URL is loaded. *)
Lemma main_upload_run_garbage :
  let f := {| read := inr garbage |} in
  let i := mkInputs (inr tt) 3 (5 # 100) true (Some f) "" false in
  load_model i = inr tt /\ uploaded_file i = Some f /\ read f = inr garbage /\
  (load_btn i = false \/ url_input i = ""%string) /\
  image_fields (snd (main (pillow := small_pillow) (network := small_network)
                       i showing_upright))
    = (Some (VBytes garbage), Some (VStr "file")) /\
  page (snd (main (pillow := small_pillow) (network := small_network) i showing_upright))
    = [ st_error "Could not decode image from memory" UnidentifiedImageError;
        st_info "Upload a file, or paste a URL and click Load from URL." ].
Proof.
  intros f i.
  assert (Hload : load_model i = inr tt) by reflexivity.
  assert (Hup : uploaded_file i = Some f) by reflexivity.
  assert (Hread : read f = inr garbage) by reflexivity.
  assert (Hidle : load_btn i = false \/ url_input i = ""%string) by (by left).
  destruct (main_upload_run (pillow := small_pillow) (network := small_network)
              i showing_upright f garbage Hload Hup Hread Hidle)
    as (Hfields & Hpage & _).
  split; [exact Hload|]. split; [exact Hup|]. split; [exact Hread|].
  split; [exact Hidle|]. split; [exact Hfields|exact (eq_trans Hpage eq_refl)].
Defined.

Lemma main_url_run_first_run :
  load_model first_run = inr tt /\ load_btn first_run = true /\
  url_input first_run <> ""%string /\
  uploaded_file first_run = Some {| read := inr photo_jpg |} /\
  fst (fetch_image_from_url (pillow := small_pillow) (network := small_network)
         (url_input first_run) initial_world) = inr upright /\
  save_PNG (Pillow := small_pillow) upright = inr upright_png /\
  image_fields (snd (main (pillow := small_pillow) (network := small_network)
                       first_run initial_world))
    = (Some (VBytes upright_png), Some (VStr "URL")).
Proof.
  assert (Hload : load_model first_run = inr tt) by reflexivity.
  assert (Hbtn : load_btn first_run = true) by reflexivity.
  assert (Hurl : url_input first_run <> ""%string) by (intros Heq; discriminate Heq).
  assert (Hfetch : fst (fetch_image_from_url (pillow := small_pillow)
                          (network := small_network)
                          (url_input first_run) initial_world) = inr upright)
    by reflexivity.
  assert (Hsave : save_PNG (Pillow := small_pillow) upright = inr upright_png)
    by reflexivity.
  split; [exact Hload|]. split; [exact Hbtn|]. split; [exact Hurl|].
  split; [reflexivity|]. split; [exact Hfetch|]. split; [exact Hsave|].
  exact (proj1 (main_url_run (pillow := small_pillow) (network := small_network)
                  first_run initial_world upright upright_png
                  Hload Hbtn Hurl Hfetch Hsave)).
Defined.
